(** * The allocator interface and its memory monitor

    A shallow embedding of [src/interface/allocator.cpp]: the three C API
    entry points that create and destroy an allocator, and the static
    bookkeeping of [dnnl_graph_allocator::monitor_t], which records every
    buffer an allocator hands out, per lifetime class, per allocator and
    (for temporary buffers) per thread.

    Conventions of the embedding.
    - [size_t] is an unsigned 64-bit integer: a [Z] whose arithmetic is
      reduced modulo [2^64] where the source uses [+=] and [-=].
    - Pointers ([const dnnl_graph_allocator *], [const void *]) and
      [std::thread::id] are opaque comparable tokens, here numbers.
    - A [std::unordered_map] is a [gmap].  [operator[]] value-initialises a
      missing slot, [at] throws [std::out_of_range], [find] returns [end()]
      and [emplace] leaves an existing element alone; each of these is
      written out below.
    - [std::this_thread::get_id()] is the explicit argument [tid].
    - The static members of [monitor_t] are the fields of one record that
      is threaded through every operation.
    - The calls of one run come one after the other.  A call that has to
      wait for the lock therefore waits for good: nobody is left to release
      it.  The lock keeps the history of its calls, with the writes to the
      maps marked in between. *)

From Stdlib Require Import ZArith String List Lia.
From stdpp Require Import base option list gmap fin_maps.

Local Open Scope Z_scope.

(** ** Basic types *)

Abbreviation thread_id := N (only parsing).
Abbreviation allocator_ptr := N (only parsing).
Abbreviation buffer_ptr := N (only parsing).

Definition size_t_bits : Z := 64.
Definition size_t_modulus : Z := 2 ^ size_t_bits.

(** The value an unsigned [size_t] expression takes. *)
Definition to_size_t (z : Z) : Z := z mod size_t_modulus.

Definition is_size_t (z : Z) : Prop := 0 <= z < size_t_modulus.

Inductive allocator_lifetime : Type :=
| persistent
| output
| temp.

Record attribute_data_t : Type := { type : allocator_lifetime }.

Record attribute_t : Type := { data : attribute_data_t }.

Definition attribute_of (l : allocator_lifetime) : attribute_t :=
  {| data := {| type := l |} |}.

Record mem_info_t : Type := { size_ : Z; type_ : allocator_lifetime }.

Inductive status_t : Type :=
| success
| invalid_arguments
| unimplemented.

(** ** The reader/writer lock *)

(** What the history of the lock records: the four calls on the lock and,
    between them, a mark for every write to one of the five maps, so that
    the history tells which writes were made while the lock was held. *)
Inductive lock_call : Type :=
| LockRead
| UnlockRead
| LockWrite
| UnlockWrite
| RegistryWrite.

(** Modelled from the spec: [utils::rw_mutex_t] of [utils/rw_mutex.hpp], which
    is not among the sources.  It is a reader/writer lock: any number of
    holders in shared (read) mode or one holder in exclusive (write) mode,
    not reentrant, and an acquisition blocks until it can be granted.  The
    lock is represented by its history, oldest entry first; who holds it
    follows from the history. *)
Definition rw_mutex_t : Type := list lock_call.

(** Modelled from the spec: the state of that lock.  Who holds it: a
    writer, or a number of readers. *)
Record lock_state : Type := { writer : bool; readers : nat }.

Definition lock_released : lock_state := {| writer := false; readers := 0 |}.

Definition lock_step (l : lock_state) (c : lock_call) : lock_state :=
  match c with
  | LockRead => {| writer := writer l; readers := S (readers l) |}
  | UnlockRead => {| writer := writer l; readers := Nat.pred (readers l) |}
  | LockWrite => {| writer := true; readers := readers l |}
  | UnlockWrite => {| writer := false; readers := readers l |}
  | RegistryWrite => l
  end.

Definition lock_state_of (h : rw_mutex_t) : lock_state :=
  fold_left lock_step h lock_released.

(** Modelled from the spec: when that lock grants an acquisition.  The
    exclusive mode is granted when nobody holds the lock, the shared mode
    when no writer holds it. *)
Definition grants_write (h : rw_mutex_t) : bool :=
  negb (writer (lock_state_of h)) && Nat.eqb (readers (lock_state_of h)) 0.

Definition grants_read (h : rw_mutex_t) : bool :=
  negb (writer (lock_state_of h)).

(** Every write marked in a stretch of history was made while a writer held
    the lock; [l] is who held the lock when the stretch began. *)
Fixpoint writes_guarded (l : lock_state) (entries : list lock_call) : bool :=
  match entries with
  | [] => true
  | c :: entries' =>
      match c with
      | RegistryWrite => writer l
      | _ => true
      end && writes_guarded (lock_step l c) entries'
  end.

(** ** The static state of [monitor_t] *)

Record monitor_t : Type := {
  persist_mem_ : gmap allocator_ptr Z;
  persist_mem_infos_ : gmap allocator_ptr (gmap buffer_ptr mem_info_t);
  temp_mem_ : gmap thread_id (gmap allocator_ptr Z);
  peak_temp_mem_ : gmap thread_id (gmap allocator_ptr Z);
  temp_mem_infos_ :
    gmap thread_id (gmap allocator_ptr (gmap buffer_ptr mem_info_t));
  rw_mutex_ : rw_mutex_t
}.

(** All the static maps are empty when the process starts. *)
Definition monitor_init : monitor_t :=
  {| persist_mem_ := ∅; persist_mem_infos_ := ∅; temp_mem_ := ∅;
     peak_temp_mem_ := ∅; temp_mem_infos_ := ∅; rw_mutex_ := [] |}.

Definition set_persist_mem_ (f : gmap N Z → gmap N Z) (s : monitor_t) : monitor_t :=
  {| persist_mem_ := f (persist_mem_ s);
     persist_mem_infos_ := persist_mem_infos_ s;
     temp_mem_ := temp_mem_ s;
     peak_temp_mem_ := peak_temp_mem_ s;
     temp_mem_infos_ := temp_mem_infos_ s;
     rw_mutex_ := rw_mutex_ s |}.

Definition set_persist_mem_infos_
    (f : gmap N (gmap N mem_info_t) → gmap N (gmap N mem_info_t))
    (s : monitor_t) : monitor_t :=
  {| persist_mem_ := persist_mem_ s;
     persist_mem_infos_ := f (persist_mem_infos_ s);
     temp_mem_ := temp_mem_ s;
     peak_temp_mem_ := peak_temp_mem_ s;
     temp_mem_infos_ := temp_mem_infos_ s;
     rw_mutex_ := rw_mutex_ s |}.

Definition set_temp_mem_ (f : gmap N (gmap N Z) → gmap N (gmap N Z))
    (s : monitor_t) : monitor_t :=
  {| persist_mem_ := persist_mem_ s;
     persist_mem_infos_ := persist_mem_infos_ s;
     temp_mem_ := f (temp_mem_ s);
     peak_temp_mem_ := peak_temp_mem_ s;
     temp_mem_infos_ := temp_mem_infos_ s;
     rw_mutex_ := rw_mutex_ s |}.

Definition set_peak_temp_mem_ (f : gmap N (gmap N Z) → gmap N (gmap N Z))
    (s : monitor_t) : monitor_t :=
  {| persist_mem_ := persist_mem_ s;
     persist_mem_infos_ := persist_mem_infos_ s;
     temp_mem_ := temp_mem_ s;
     peak_temp_mem_ := f (peak_temp_mem_ s);
     temp_mem_infos_ := temp_mem_infos_ s;
     rw_mutex_ := rw_mutex_ s |}.

Definition set_temp_mem_infos_
    (f : gmap N (gmap N (gmap N mem_info_t)) → gmap N (gmap N (gmap N mem_info_t)))
    (s : monitor_t) : monitor_t :=
  {| persist_mem_ := persist_mem_ s;
     persist_mem_infos_ := persist_mem_infos_ s;
     temp_mem_ := temp_mem_ s;
     peak_temp_mem_ := peak_temp_mem_ s;
     temp_mem_infos_ := f (temp_mem_infos_ s);
     rw_mutex_ := rw_mutex_ s |}.

Definition set_rw_mutex_ (f : rw_mutex_t → rw_mutex_t) (s : monitor_t) : monitor_t :=
  {| persist_mem_ := persist_mem_ s;
     persist_mem_infos_ := persist_mem_infos_ s;
     temp_mem_ := temp_mem_ s;
     peak_temp_mem_ := peak_temp_mem_ s;
     temp_mem_infos_ := temp_mem_infos_ s;
     rw_mutex_ := f (rw_mutex_ s) |}.

(** ** How a member function can end *)

Inductive exception : Type :=
| out_of_range.

(** A call either returns, leaves through a C++ exception, aborts the
    process, runs into undefined behaviour, or waits at the lock, which in
    a sequential run nobody releases; each case carries the static state at
    that point. *)
Inductive outcome (A : Type) : Type :=
| Returned (a : A) (s : monitor_t)
| Thrown (e : exception) (s : monitor_t)
| Aborted (msg : string) (s : monitor_t)
| Undefined (s : monitor_t)
| Blocked (s : monitor_t).

Arguments Returned {A} a s.
Arguments Thrown {A} e s.
Arguments Aborted {A} msg s.
Arguments Undefined {A} s.
Arguments Blocked {A} s.

Definition final_state {A} (o : outcome A) : monitor_t :=
  match o with
  | Returned _ s | Thrown _ s | Aborted _ s | Undefined s | Blocked s => s
  end.

Definition M (A : Type) : Type := monitor_t → outcome A.

Definition ret {A} (a : A) : M A := λ s, Returned a s.

Definition bind {A B} (m : M A) (k : A → M B) : M B :=
  λ s, match m s with
       | Returned a s' => k a s'
       | Thrown e s' => Thrown e s'
       | Aborted msg s' => Aborted msg s'
       | Undefined s' => Undefined s'
       | Blocked s' => Blocked s'
       end.

Declare Scope monitor_scope.
Delimit Scope monitor_scope with mon.
Notation "x <~ m ;; k" := (bind m (λ x, k))
  (at level 100, m at next level, right associativity) : monitor_scope.
Notation "m ;;; k" := (bind m (λ _, k))
  (at level 100, right associativity) : monitor_scope.

Definition get : M monitor_t := λ s, Returned s s.
Definition modify (f : monitor_t → monitor_t) : M unit := λ s, Returned tt (f s).
Definition throw {A} (e : exception) : M A := λ s, Thrown e s.
Definition abort {A} (msg : string) : M A := λ s, Aborted msg s.
Definition undefined_behaviour {A} : M A := λ s, Undefined s.
Definition wait_for_lock {A} : M A := λ s, Blocked s.

(** The state after a write to one of the five maps: the map is changed as
    [f] says and the write is marked in the history of the lock. *)
Definition written (f : monitor_t → monitor_t) (s : monitor_t) : monitor_t :=
  set_rw_mutex_ (λ h, h ++ [RegistryWrite]) (f s).

Definition write (f : monitor_t → monitor_t) : M unit := modify (written f).

(** ** [std::unordered_map] accesses *)

(** [m[k]] read as a value: the mapped value, value-initialised ([d]) when
    the key is missing. *)
Definition slot `{Countable K} {V} (d : V) (m : gmap K V) (k : K) : V :=
  default d (m !! k).

(** [m[k] = f(m[k])]: the slot is created when missing, then assigned. *)
Definition assign_slot `{Countable K} {V} (d : V) (f : V → V) (k : K)
    (m : gmap K V) : gmap K V :=
  <[k := f (slot d m k)]> m.

(** [m.emplace(k, v)]: nothing happens when [k] is already a key. *)
Definition emplace `{Countable K} {V} (k : K) (v : V) (m : gmap K V) : gmap K V :=
  match m !! k with
  | Some _ => m
  | None => <[k := v]> m
  end.

(** [m.at(k)]. *)
Definition at_ `{Countable K} {V} (m : gmap K V) (k : K) : M V :=
  match m !! k with
  | Some v => ret v
  | None => throw out_of_range
  end.

(** Modelled from the spec: the [assertm] macro of [utils/utils.hpp], which is
    not among the sources.  Per the spec a failed assertion is fatal: it
    aborts the process instead of returning. *)
Definition assertm (cond : bool) (msg : string) : M unit :=
  if cond then ret tt else abort msg.

(** ** The member functions of [monitor_t] *)

Local Open Scope monitor_scope.

(** Modelled from the spec: the four member functions of [rw_mutex_t].
    An acquisition that cannot be granted waits; a release is not checked. *)
Definition rw_lock_read : M unit :=
  s <~ get ;;
  if grants_read (rw_mutex_ s)
  then modify (set_rw_mutex_ (λ h, h ++ [LockRead]))
  else wait_for_lock.

Definition rw_unlock_read : M unit :=
  modify (set_rw_mutex_ (λ h, h ++ [UnlockRead])).

Definition rw_lock_write : M unit :=
  s <~ get ;;
  if grants_write (rw_mutex_ s)
  then modify (set_rw_mutex_ (λ h, h ++ [LockWrite]))
  else wait_for_lock.

Definition rw_unlock_write : M unit :=
  modify (set_rw_mutex_ (λ h, h ++ [UnlockWrite])).

(** [x[tid][alloc] = f(x[tid][alloc])] on a two-level map: both levels are
    created when missing. *)
Definition assign_slot2 {V} (d : V) (f : V → V) (tid : thread_id)
    (alloc : allocator_ptr) (m : gmap thread_id (gmap allocator_ptr V))
    : gmap thread_id (gmap allocator_ptr V) :=
  assign_slot ∅ (assign_slot d f alloc) tid m.

Definition slot2 {V} (d : V) (m : gmap thread_id (gmap allocator_ptr V))
    (tid : thread_id) (alloc : allocator_ptr) : V :=
  slot d (slot ∅ m tid) alloc.

Definition record_allocate (tid : thread_id) (alloc : allocator_ptr)
    (buf : buffer_ptr) (size : Z) (attr : attribute_t) : M unit :=
  match type (data attr) with
  | persistent =>
      (* persist_mem_[alloc] += size; *)
      write (set_persist_mem_
               (assign_slot 0 (λ v, to_size_t (v + size)) alloc)) ;;;
      (* persist_mem_infos_[alloc].emplace(buf, {size, persistent}); *)
      write (set_persist_mem_infos_
               (assign_slot ∅
                  (emplace buf {| size_ := size; type_ := persistent |})
                  alloc))
  | temp =>
      (* temp_mem_[tid][alloc] += size; *)
      write (set_temp_mem_
               (assign_slot2 0 (λ v, to_size_t (v + size)) tid alloc)) ;;;
      (* if (peak_temp_mem_[tid][alloc] < temp_mem_[tid][alloc])
             peak_temp_mem_[tid][alloc] = temp_mem_[tid][alloc]; *)
      s <~ get ;;
      let cur := slot2 0 (temp_mem_ s) tid alloc in
      write (set_peak_temp_mem_
               (assign_slot2 0 (λ p, if p <? cur then cur else p) tid alloc)) ;;;
      (* temp_mem_infos_[tid][alloc].emplace(buf, {size, temp}); *)
      write (set_temp_mem_infos_
               (assign_slot2 ∅
                  (emplace buf {| size_ := size; type_ := temp |})
                  tid alloc))
  | output =>
      assertm false "we didn't use output type buffer now"
  end.

Definition record_deallocate (tid : thread_id) (alloc : allocator_ptr)
    (buf : buffer_ptr) : M unit :=
  s <~ get ;;
  (* is_persist: both lookups are finds, nothing is created *)
  match persist_mem_infos_ s !! alloc ≫= (λ infos, infos !! buf) with
  | Some persist_pos =>
      (* persist_mem_[alloc] -= persist_pos->second.size_; *)
      write (set_persist_mem_
               (assign_slot 0 (λ v, to_size_t (v - size_ persist_pos)) alloc)) ;;;
      (* persist_mem_infos_[alloc].erase(persist_pos); *)
      write (set_persist_mem_infos_ (assign_slot ∅ (delete buf) alloc))
  | None =>
      (* auto temp_pos = temp_mem_infos_[tid][alloc].find(buf);
         operator[] is a write access: it creates the slots it misses *)
      write (set_temp_mem_infos_ (assign_slot2 ∅ (λ infos, infos) tid alloc)) ;;;
      s <~ get ;;
      match slot2 ∅ (temp_mem_infos_ s) tid alloc !! buf with
      | Some temp_pos =>
          (* temp_mem_[tid][alloc] -= temp_pos->second.size_; *)
          write (set_temp_mem_
                   (assign_slot2 0 (λ v, to_size_t (v - size_ temp_pos))
                      tid alloc))
      | None =>
          (* temp_pos is end(): temp_pos->second dereferences it *)
          undefined_behaviour
      end
  end.

Definition reset_peak_temp_memory (tid : thread_id) (alloc : allocator_ptr)
    : M unit :=
  rw_lock_write ;;;
  write (set_peak_temp_mem_ (assign_slot2 0 (λ _, 0) tid alloc)) ;;;
  rw_unlock_write.

Definition get_peak_temp_memory (tid : thread_id) (alloc : allocator_ptr)
    : M Z :=
  rw_lock_read ;;;
  s <~ get ;;
  per_alloc <~ at_ (peak_temp_mem_ s) tid ;;
  r <~ at_ per_alloc alloc ;;
  rw_unlock_read ;;;
  ret r.

Definition get_total_persist_memory (alloc : allocator_ptr) : M Z :=
  rw_lock_read ;;;
  s <~ get ;;
  let size := match persist_mem_ s !! alloc with
              | Some v => v
              | None => 0
              end in
  rw_unlock_read ;;;
  ret size.

Definition lock_write : M unit := rw_lock_write.

Definition unlock_write : M unit := rw_unlock_write.

Local Close Scope monitor_scope.

(** ** The C API: creating and destroying an allocator *)

(** The two preprocessor symbols the entry points branch on. *)
Record build_config : Type := {
  DNNL_GRAPH_CPU_SYCL : bool;
  DNNL_GRAPH_WITH_SYCL : bool
}.

(** A function pointer is a code address, or null ([None]). *)
Abbreviation cpu_allocate_f := (option N) (only parsing).
Abbreviation cpu_deallocate_f := (option N) (only parsing).
Abbreviation sycl_allocate_f := (option N) (only parsing).
Abbreviation sycl_deallocate_f := (option N) (only parsing).

(** The pair of callbacks an allocator is bound to. *)
Inductive callbacks_t : Type :=
| default_callbacks
| cpu_callbacks (cpu_malloc : cpu_allocate_f) (cpu_free : cpu_deallocate_f)
| sycl_callbacks (sycl_malloc : sycl_allocate_f) (sycl_free : sycl_deallocate_f).

Record allocator_t : Type := { callbacks_ : callbacks_t }.

(** Modelled from the spec: [allocator_t::create] of [interface/allocator.hpp],
    which is not among the sources.  Without arguments it builds the default
    facade, on the process-standard allocate/free pair; with a pair of
    callbacks it builds a facade bound to that pair. *)
Definition create : allocator_t := {| callbacks_ := default_callbacks |}.

Definition create_cpu (cpu_malloc : cpu_allocate_f) (cpu_free : cpu_deallocate_f)
    : allocator_t :=
  {| callbacks_ := cpu_callbacks cpu_malloc cpu_free |}.

Definition create_sycl (sycl_malloc : sycl_allocate_f)
    (sycl_free : sycl_deallocate_f) : allocator_t :=
  {| callbacks_ := sycl_callbacks sycl_malloc sycl_free |}.

(** Modelled from the spec: [utils::any_null] of [utils/utils.hpp], which is
    not among the sources: true when either pointer is absent. *)
Definition any_null {A B} (a : option A) (b : option B) : bool :=
  match a, b with
  | Some _, Some _ => false
  | _, _ => true
  end.

(** The result is the status together with what was stored through the
    out-parameter [allocator]; [None] when nothing was stored. *)
Definition dnnl_graph_allocator_create (cfg : build_config)
    (cpu_malloc : cpu_allocate_f) (cpu_free : cpu_deallocate_f)
    : status_t * option allocator_t :=
  if DNNL_GRAPH_CPU_SYCL cfg then
    (invalid_arguments, None)
  else
    (success,
     Some (if any_null cpu_malloc cpu_free then create
           else create_cpu cpu_malloc cpu_free)).

Definition dnnl_graph_sycl_interop_allocator_create (cfg : build_config)
    (sycl_malloc : sycl_allocate_f) (sycl_free : sycl_deallocate_f)
    : status_t * option allocator_t :=
  if DNNL_GRAPH_WITH_SYCL cfg then
    (success,
     Some (if any_null sycl_malloc sycl_free then create
           else create_sycl sycl_malloc sycl_free))
  else
    (unimplemented, None).

(** The argument is [None] for a null handle.  What [release] does to the
    object is not part of this file. *)
Definition dnnl_graph_allocator_destroy (allocator : option allocator_t)
    : status_t :=
  match allocator with
  | None => invalid_arguments
  | Some _ => success
  end.

(** ** Observations on the static state *)

Definition persist_total (s : monitor_t) (alloc : allocator_ptr) : Z :=
  slot 0 (persist_mem_ s) alloc.

Definition persist_entries (s : monitor_t) (alloc : allocator_ptr)
    : gmap buffer_ptr mem_info_t :=
  slot ∅ (persist_mem_infos_ s) alloc.

Definition temp_current (s : monitor_t) (tid : thread_id) (alloc : allocator_ptr)
    : Z :=
  slot2 0 (temp_mem_ s) tid alloc.

Definition temp_peak (s : monitor_t) (tid : thread_id) (alloc : allocator_ptr)
    : Z :=
  slot2 0 (peak_temp_mem_ s) tid alloc.

Definition temp_entries (s : monitor_t) (tid : thread_id) (alloc : allocator_ptr)
    : gmap buffer_ptr mem_info_t :=
  slot2 ∅ (temp_mem_infos_ s) tid alloc.

(** The sum of the sizes recorded in an entry map. *)
Definition sum_sizes (infos : gmap buffer_ptr mem_info_t) : Z :=
  map_fold (λ _ info acc, size_ info + acc) 0 infos.

(** What a member function added to the history of the lock, given the
    state it started from: its calls on the lock and the marks of its
    writes. *)
Definition lock_calls {A} (m : M A) (s : monitor_t) : list lock_call :=
  drop (length (rw_mutex_ s)) (rw_mutex_ (final_state (m s))).

(** The (thread, allocator) slot of the peak map exists. *)
Definition peak_slot_initialized (s : monitor_t) (tid : thread_id)
    (alloc : allocator_ptr) : Prop :=
  is_Some (peak_temp_mem_ s !! tid ≫= (λ per_alloc, per_alloc !! alloc)).

(** ** Sequences of monitor calls *)

Inductive call : Type :=
| Allocate (tid : thread_id) (alloc : allocator_ptr) (buf : buffer_ptr)
    (size : Z) (attr : attribute_t)
| Deallocate (tid : thread_id) (alloc : allocator_ptr) (buf : buffer_ptr)
| ResetPeak (tid : thread_id) (alloc : allocator_ptr).

Definition run_call (c : call) : M unit :=
  match c with
  | Allocate tid alloc buf size attr => record_allocate tid alloc buf size attr
  | Deallocate tid alloc buf => record_deallocate tid alloc buf
  | ResetPeak tid alloc => reset_peak_temp_memory tid alloc
  end.

Fixpoint run_calls (cs : list call) : M unit :=
  match cs with
  | [] => ret tt
  | c :: cs' => bind (run_call c) (λ _, run_calls cs')
  end.

(** The state a deallocation of an unrecorded address is in when it goes
    wrong: looking the address up has created the thread's slot. *)
Definition after_temp_find (tid : thread_id) (alloc : allocator_ptr)
    (s : monitor_t) : monitor_t :=
  written (set_temp_mem_infos_ (assign_slot2 ∅ (λ infos, infos) tid alloc)) s.

(** What a query returned, if it returned. *)
Definition returned_value {A} (o : outcome A) : option A :=
  match o with
  | Returned a _ => Some a
  | _ => None
  end.

(** A member function takes the lock in exclusive mode, from whatever state
    it is called in. *)
Definition takes_write_lock {A} (m : M A) : Prop :=
  ∀ s, LockWrite ∈ lock_calls m s.

(** A member function, called while nobody holds the lock, takes the lock
    in exclusive mode and makes each of its writes while holding it. *)
Definition writes_under_own_lock {A} (m : M A) : Prop :=
  ∀ s, grants_write (rw_mutex_ s) = true →
       LockWrite ∈ lock_calls m s ∧
       writes_guarded (lock_state_of (rw_mutex_ s)) (lock_calls m s) = true.

(** The stored peak of a (thread, allocator) pair is at least its stored
    current total. *)
Definition peak_covers_current (s : monitor_t) (tid : thread_id)
    (alloc : allocator_ptr) : Prop :=
  temp_current s tid alloc <= temp_peak s tid alloc.

Definition is_temp_allocate (c : call) : Prop :=
  match c with
  | Allocate _ _ _ _ attr => type (data attr) = temp
  | _ => False
  end.

(** The calls that leave the order between peak and current of the pair
    ([tid], [alloc]) alone: every call except a reset of that pair's peak,
    and except a release on that pair that would take more off the current
    total than is there. *)
Definition spares_peak_order (c : call) (s : monitor_t) (tid : thread_id)
    (alloc : allocator_ptr) : Prop :=
  match c with
  | Allocate _ _ _ _ _ => True
  | Deallocate t a buf =>
      (t, a) = (tid, alloc) →
      persist_entries s a !! buf = None →
      ∀ info, temp_entries s t a !! buf = Some info →
              0 <= size_ info <= temp_current s t a
  | ResetPeak t a => (t, a) ≠ (tid, alloc)
  end.



(** The arguments of a call have the values their C++ types allow. *)
Definition well_typed (c : call) : Prop :=
  match c with
  | Allocate _ _ _ size _ => is_size_t size
  | _ => True
  end.



(** The calls that cannot create the peak slot of ([tid], [alloc]): all but
    a temporary allocation and a reset of the peak by that thread for that
    allocator. *)
Definition leaves_peak_slot (tid : thread_id) (alloc : allocator_ptr)
    (c : call) : Prop :=
  match c with
  | Allocate t a _ _ attr => type (data attr) = temp → (t, a) ≠ (tid, alloc)
  | Deallocate _ _ _ => True
  | ResetPeak t a => (t, a) ≠ (tid, alloc)
  end.

(** A history in which thread 1 used allocator 7 and thread 3 did not. *)
Definition thread_1_history : list call :=
  [Allocate 1 7 4096 64 (attribute_of temp);
   Allocate 1 7 8192 32 (attribute_of persistent);
   ResetPeak 1 7;
   Deallocate 1 7 4096].

(** The state the throwing [get_peak_temp_memory] leaves behind when it is
    the first call of the process: the read lock is held and stays so. *)
Definition read_lock_leaked : monitor_t :=
  final_state (get_peak_temp_memory 3 7 monitor_init).

(** The state after a caller's [lock_write] as the first call of the
    process: a writer holds the lock. *)
Definition write_locked : monitor_t := final_state (lock_write monitor_init).

(** One persistent buffer of one byte at address 4096. *)
Definition one_byte_persistent : monitor_t :=
  final_state (record_allocate 1 7 4096 1 (attribute_of persistent) monitor_init).

(** Sample states and build configurations. *)
Definition one_temp_buffer : monitor_t :=
  final_state (record_allocate 1 7 4096 64 (attribute_of temp) monitor_init).

Definition one_persistent_buffer : monitor_t :=
  final_state (record_allocate 1 7 4096 10 (attribute_of persistent) monitor_init).

Definition host_build : build_config :=
  {| DNNL_GRAPH_CPU_SYCL := false; DNNL_GRAPH_WITH_SYCL := false |}.

Definition sycl_only_build : build_config :=
  {| DNNL_GRAPH_CPU_SYCL := true; DNNL_GRAPH_WITH_SYCL := true |}.

(** Unfolds one member function down to the state it produces. *)
Ltac run_monitor :=
  unfold run_call, record_allocate, record_deallocate, reset_peak_temp_memory,
    get_peak_temp_memory, get_total_persist_memory, lock_write, unlock_write,
    rw_lock_read, rw_unlock_read, rw_lock_write, rw_unlock_write,
    at_, assertm, bind, get, write, modify, ret, throw, abort,
    undefined_behaviour, wait_for_lock;
  cbn beta iota.

(** ** The state a call leaves behind *)

(** The allocator and the (thread, allocator) pair a call is made for. *)
Definition call_alloc (c : call) : allocator_ptr :=
  match c with
  | Allocate _ a _ _ _ | Deallocate _ a _ | ResetPeak _ a => a
  end.

Definition call_pair (c : call) : thread_id * allocator_ptr :=
  match c with
  | Allocate t a _ _ _ | Deallocate t a _ | ResetPeak t a => (t, a)
  end.

(** The calls that take the persistent branch of [record_allocate]. *)
Definition is_persistent_allocate (c : call) : Prop :=
  match c with
  | Allocate _ _ _ _ attr => type (data attr) = persistent
  | _ => False
  end.

(** The bytes the temporary allocations of a sequence of calls ask for on
    behalf of one (thread, allocator) pair. *)
Fixpoint allocated_by (tid : thread_id) (alloc : allocator_ptr)
    (cs : list call) : Z :=
  match cs with
  | [] => 0
  | Allocate t a _ size attr :: cs' =>
      (if decide ((t, a) = (tid, alloc))
       then match type (data attr) with
            | temp => size
            | _ => 0
            end
       else 0) + allocated_by tid alloc cs'
  | _ :: cs' => allocated_by tid alloc cs'
  end.

(** The state a temporary [record_allocate] leaves behind. *)
Definition record_allocate_temp_state (tid : thread_id) (alloc : allocator_ptr)
    (buf : buffer_ptr) (size : Z) (s : monitor_t) : monitor_t :=
  let s1 := written
              (set_temp_mem_
                 (assign_slot2 0 (λ v, to_size_t (v + size)) tid alloc)) s in
  let cur := slot2 0 (temp_mem_ s1) tid alloc in
  let s2 := written
              (set_peak_temp_mem_
                 (assign_slot2 0 (λ p, if p <? cur then cur else p) tid alloc))
              s1 in
  written
    (set_temp_mem_infos_
       (assign_slot2 ∅ (emplace buf {| size_ := size; type_ := temp |})
          tid alloc))
    s2.

(** The state [reset_peak_temp_memory] leaves behind when it gets the lock. *)
Definition reset_peak_state (tid : thread_id) (alloc : allocator_ptr)
    (s : monitor_t) : monitor_t :=
  set_rw_mutex_ (λ h, h ++ [UnlockWrite])
    (written (set_peak_temp_mem_ (assign_slot2 0 (λ _, 0) tid alloc))
       (set_rw_mutex_ (λ h, h ++ [LockWrite]) s)).

(** The state any call leaves behind, however it ends. *)
Definition step_state (c : call) (s : monitor_t) : monitor_t :=
  match c with
  | Allocate t a buf size attr =>
      match type (data attr) with
      | persistent =>
          written
            (set_persist_mem_infos_
               (assign_slot ∅
                  (emplace buf {| size_ := size; type_ := persistent |}) a))
            (written
               (set_persist_mem_
                  (assign_slot 0 (λ v, to_size_t (v + size)) a)) s)
      | output => s
      | temp => record_allocate_temp_state t a buf size s
      end
  | Deallocate t a buf =>
      match persist_entries s a !! buf with
      | Some info =>
          written (set_persist_mem_infos_ (assign_slot ∅ (delete buf) a))
            (written
               (set_persist_mem_
                  (assign_slot 0 (λ v, to_size_t (v - size_ info)) a)) s)
      | None =>
          match temp_entries s t a !! buf with
          | Some info =>
              written
                (set_temp_mem_
                   (assign_slot2 0 (λ v, to_size_t (v - size_ info)) t a))
                (after_temp_find t a s)
          | None => after_temp_find t a s
          end
      end
  | ResetPeak t a =>
      if grants_write (rw_mutex_ s) then reset_peak_state t a s else s
  end.

(** What a call adds to the history of the lock. *)
Definition history_of_call (c : call) (s : monitor_t) : list lock_call :=
  match c with
  | Allocate _ _ _ _ attr =>
      match type (data attr) with
      | persistent => [RegistryWrite; RegistryWrite]
      | output => []
      | temp => [RegistryWrite; RegistryWrite; RegistryWrite]
      end
  | Deallocate t a buf =>
      match persist_entries s a !! buf with
      | Some _ => [RegistryWrite; RegistryWrite]
      | None =>
          match temp_entries s t a !! buf with
          | Some _ => [RegistryWrite; RegistryWrite]
          | None => [RegistryWrite]
          end
      end
  | ResetPeak _ _ =>
      if grants_write (rw_mutex_ s)
      then [LockWrite; RegistryWrite; UnlockWrite]
      else []
  end.

(** A call made between [lock_write] and [unlock_write], as a caller that
    wants the exclusive mode for it has to write it. *)
Definition bracketed (c : call) : M unit :=
  bind lock_write (λ _, bind (run_call c) (λ _, unlock_write)).

(** The five maps of two states are the same; the lock history may differ. *)
Definition same_registries (s s' : monitor_t) : Prop :=
  persist_mem_ s' = persist_mem_ s ∧
  persist_mem_infos_ s' = persist_mem_infos_ s ∧
  temp_mem_ s' = temp_mem_ s ∧
  peak_temp_mem_ s' = peak_temp_mem_ s ∧
  temp_mem_infos_ s' = temp_mem_infos_ s.

(** Further sample states and histories. *)
Definition persistent_and_temp_at_one_address : monitor_t :=
  final_state
    (run_calls [Allocate 1 7 4096 10 (attribute_of persistent);
                Allocate 2 7 4096 64 (attribute_of temp)] monitor_init).

Definition three_temp_allocations : list call :=
  [Allocate 1 7 4096 1024 (attribute_of temp);
   Allocate 2 7 8192 512 (attribute_of temp);
   Allocate 1 7 12288 2048 (attribute_of temp)].

Definition sycl_build : build_config :=
  {| DNNL_GRAPH_CPU_SYCL := false; DNNL_GRAPH_WITH_SYCL := true |}.

(** * Properties *)

(** ** [size_t] arithmetic *)

Lemma size_t_modulus_pos : 0 < size_t_modulus.
Proof. reflexivity. Qed.

Lemma to_size_t_range z : is_size_t (to_size_t z).
Proof. apply Z.mod_pos_bound, size_t_modulus_pos. Qed.

Lemma to_size_t_small z : is_size_t z → to_size_t z = z.
Proof. apply Z.mod_small. Qed.

Lemma to_size_t_le z : 0 <= z → to_size_t z <= z.
Proof. intros Hz. apply Z.mod_le; [done | apply size_t_modulus_pos]. Qed.

Lemma to_size_t_add_l a b : to_size_t (to_size_t a + b) = to_size_t (a + b).
Proof. apply Zplus_mod_idemp_l. Qed.

Lemma to_size_t_sub_l a b : to_size_t (to_size_t a - b) = to_size_t (a - b).
Proof. apply Zminus_mod_idemp_l. Qed.

(** ** Map accesses *)

Section slots.
Context `{Countable K} {V : Type}.
Implicit Types (m : gmap K V) (d : V) (f : V → V) (k : K).

Lemma slot_assign_slot_eq d f k m :
  slot d (assign_slot d f k m) k = f (slot d m k).
Proof. unfold slot, assign_slot. by rewrite lookup_insert_eq. Qed.

Lemma slot_assign_slot_ne d d' f k k' m :
  k ≠ k' → slot d' (assign_slot d f k m) k' = slot d' m k'.
Proof. intros Hne. unfold slot, assign_slot. by rewrite lookup_insert_ne. Qed.

Lemma emplace_present k v v0 m :
  m !! k = Some v0 → emplace k v m = m.
Proof. intros Hk. unfold emplace. by rewrite Hk. Qed.

Lemma emplace_absent k v m :
  m !! k = None → emplace k v m = <[k := v]> m.
Proof. intros Hk. unfold emplace. by rewrite Hk. Qed.

End slots.

Section slots2.
Context {V : Type}.
Implicit Types (m : gmap thread_id (gmap allocator_ptr V)) (d : V) (f : V → V).

Lemma slot2_assign_slot2_eq d f tid alloc m :
  slot2 d (assign_slot2 d f tid alloc m) tid alloc = f (slot2 d m tid alloc).
Proof.
  unfold slot2, assign_slot2.
  by rewrite slot_assign_slot_eq, slot_assign_slot_eq.
Qed.

Lemma slot2_assign_slot2_ne d f tid alloc tid' alloc' m :
  (tid, alloc) ≠ (tid', alloc') →
  slot2 d (assign_slot2 d f tid alloc m) tid' alloc' = slot2 d m tid' alloc'.
Proof.
  intros Hne. unfold slot2, assign_slot2.
  destruct (decide (tid = tid')) as [<- | Htid].
  - rewrite slot_assign_slot_eq.
    apply slot_assign_slot_ne. congruence.
  - by rewrite (slot_assign_slot_ne _ _ _ _ _ _ Htid).
Qed.

Lemma slot2_assign_slot2_id d tid alloc tid' alloc' m :
  slot2 d (assign_slot2 d (λ v, v) tid alloc m) tid' alloc' = slot2 d m tid' alloc'.
Proof.
  destruct (decide ((tid, alloc) = (tid', alloc'))) as [[= <- <-] | Hne].
  - apply slot2_assign_slot2_eq.
  - by apply slot2_assign_slot2_ne.
Qed.
Lemma lookup2_assign_slot2_eq d f tid alloc m :
  assign_slot2 d f tid alloc m !! tid ≫= (λ per_alloc, per_alloc !! alloc)
  = Some (f (slot2 d m tid alloc)).
Proof.
  unfold assign_slot2, assign_slot, slot2.
  rewrite lookup_insert_eq. simpl. by rewrite lookup_insert_eq.
Qed.

Lemma lookup2_assign_slot2_ne d f tid alloc tid' alloc' m :
  (tid, alloc) ≠ (tid', alloc') →
  assign_slot2 d f tid alloc m !! tid' ≫= (λ per_alloc, per_alloc !! alloc')
  = m !! tid' ≫= (λ per_alloc, per_alloc !! alloc').
Proof.
  intros Hne. unfold assign_slot2, assign_slot.
  destruct (decide (tid = tid')) as [<- | Htid].
  - rewrite lookup_insert_eq. simpl.
    rewrite lookup_insert_ne by congruence.
    unfold slot. destruct (m !! tid); simpl; [done | by rewrite lookup_empty].
  - by rewrite lookup_insert_ne.
Qed.
End slots2.

Lemma persist_find_entries s alloc buf :
  persist_mem_infos_ s !! alloc ≫= (λ infos, infos !! buf)
  = persist_entries s alloc !! buf.
Proof.
  unfold persist_entries, slot.
  destruct (persist_mem_infos_ s !! alloc); simpl; [done | by rewrite lookup_empty].
Qed.

(** ** The lock *)

Lemma lock_state_of_app h c :
  lock_state_of (h ++ [c]) = lock_step (lock_state_of h) c.
Proof. unfold lock_state_of. by rewrite fold_left_app. Qed.

Lemma grants_write_released h :
  grants_write h = true ↔ lock_state_of h = lock_released.
Proof.
  unfold grants_write, lock_released.
  destruct (lock_state_of h) as [[] [| n]]; simpl; split; intros; try done.
Qed.

Lemma grants_write_grants_read h :
  grants_write h = true → grants_read h = true.
Proof.
  unfold grants_write, grants_read.
  by destruct (writer (lock_state_of h)).
Qed.

Lemma lock_state_of_written f s :
  lock_state_of (rw_mutex_ (written f s)) = lock_state_of (rw_mutex_ (f s)).
Proof. unfold written. simpl. by rewrite lock_state_of_app. Qed.

(** ** Outcomes of single calls *)

Lemma temp_entries_after_temp_find s tid alloc tid' alloc' :
  temp_entries (after_temp_find tid alloc s) tid' alloc' = temp_entries s tid' alloc'.
Proof. unfold temp_entries, after_temp_find. simpl. apply slot2_assign_slot2_id. Qed.

Lemma record_deallocate_unknown_state s tid alloc buf :
  persist_entries s alloc !! buf = None →
  temp_entries s tid alloc !! buf = None →
  record_deallocate tid alloc buf s = Undefined (after_temp_find tid alloc s).
Proof.
  intros Hpersist Htemp. run_monitor.
  rewrite persist_find_entries, Hpersist.
  fold (after_temp_find tid alloc s).
  fold (temp_entries (after_temp_find tid alloc s) tid alloc).
  by rewrite temp_entries_after_temp_find, Htemp.
Qed.

Lemma record_allocate_temp_returns s tid alloc buf size attr :
  type (data attr) = temp →
  ∃ s', record_allocate tid alloc buf size attr s = Returned tt s' ∧
        (∀ t a, temp_current s' t a
                = if decide ((tid, alloc) = (t, a))
                  then to_size_t (temp_current s t a + size)
                  else temp_current s t a) ∧
        (∀ t a, temp_peak s' t a
                = if decide ((tid, alloc) = (t, a))
                  then Z.max (temp_peak s t a)
                         (to_size_t (temp_current s t a + size))
                  else temp_peak s t a) ∧
        persist_mem_ s' = persist_mem_ s ∧
        persist_mem_infos_ s' = persist_mem_infos_ s.
Proof.
  intros Htemp. unfold record_allocate. rewrite Htemp. run_monitor. simpl.
  eexists. split; [reflexivity |]. repeat split.
  - intros t a. unfold temp_current. simpl.
    case_decide as Hpair.
    + injection Hpair as <- <-. by rewrite slot2_assign_slot2_eq.
    + by rewrite slot2_assign_slot2_ne.
  - intros t a. unfold temp_peak, temp_current. simpl.
    case_decide as Hpair.
    + injection Hpair as <- <-.
      rewrite !slot2_assign_slot2_eq.
      destruct (Z.ltb_spec (slot2 0 (peak_temp_mem_ s) tid alloc)
                  (to_size_t (slot2 0 (temp_mem_ s) tid alloc + size))); lia.
    + by rewrite slot2_assign_slot2_ne.
Qed.

Lemma record_allocate_persistent_state s tid alloc buf size attr :
  type (data attr) = persistent →
  record_allocate tid alloc buf size attr s
  = Returned tt
      (written
         (set_persist_mem_infos_
            (assign_slot ∅
               (emplace buf {| size_ := size; type_ := persistent |}) alloc))
         (written
            (set_persist_mem_
               (assign_slot 0 (λ v, to_size_t (v + size)) alloc)) s)).
Proof. intros Hp. unfold record_allocate. by rewrite Hp. Qed.

Lemma record_deallocate_persistent_state s tid alloc buf info :
  persist_entries s alloc !! buf = Some info →
  record_deallocate tid alloc buf s
  = Returned tt
      (written (set_persist_mem_infos_ (assign_slot ∅ (delete buf) alloc))
         (written
            (set_persist_mem_
               (assign_slot 0 (λ v, to_size_t (v - size_ info)) alloc)) s)).
Proof.
  intros Hp. run_monitor. by rewrite persist_find_entries, Hp.
Qed.

Lemma record_deallocate_temp_state s tid alloc buf info :
  persist_entries s alloc !! buf = None →
  temp_entries s tid alloc !! buf = Some info →
  record_deallocate tid alloc buf s
  = Returned tt
      (written
         (set_temp_mem_
            (assign_slot2 0 (λ v, to_size_t (v - size_ info)) tid alloc))
         (after_temp_find tid alloc s)).
Proof.
  intros Hp Ht. run_monitor.
  rewrite persist_find_entries, Hp.
  fold (after_temp_find tid alloc s).
  fold (temp_entries (after_temp_find tid alloc s) tid alloc).
  by rewrite temp_entries_after_temp_find, Ht.
Qed.

Lemma reset_peak_temp_memory_state s tid alloc :
  reset_peak_temp_memory tid alloc s
  = if grants_write (rw_mutex_ s)
    then Returned tt (reset_peak_state tid alloc s)
    else Blocked s.
Proof. run_monitor. by destruct (grants_write (rw_mutex_ s)). Qed.

Lemma reset_peak_temp_memory_returned s s' tid alloc :
  reset_peak_temp_memory tid alloc s = Returned tt s' →
  grants_write (rw_mutex_ s) = true ∧ s' = reset_peak_state tid alloc s.
Proof.
  rewrite reset_peak_temp_memory_state.
  destruct (grants_write (rw_mutex_ s)); [| discriminate].
  by intros [= <-].
Qed.

Lemma get_total_persist_memory_returns s alloc :
  get_total_persist_memory alloc s
  = if grants_read (rw_mutex_ s)
    then Returned (persist_total s alloc)
           (set_rw_mutex_ (λ h, h ++ [UnlockRead])
              (set_rw_mutex_ (λ h, h ++ [LockRead]) s))
    else Blocked s.
Proof.
  run_monitor. destruct (grants_read (rw_mutex_ s)); [| done].
  simpl. unfold persist_total, slot.
  by destruct (persist_mem_ s !! alloc).
Qed.

Lemma record_allocate_temp_final s tid alloc buf size attr :
  type (data attr) = temp →
  record_allocate tid alloc buf size attr s
  = Returned tt (record_allocate_temp_state tid alloc buf size s).
Proof. intros Hty. unfold record_allocate. by rewrite Hty. Qed.

Lemma final_state_run_call c s : final_state (run_call c s) = step_state c s.
Proof.
  destruct c as [t a buf size attr | t a buf | t a]; simpl.
  - destruct (type (data attr)) eqn:Hty.
    + by rewrite (record_allocate_persistent_state _ _ _ _ _ _ Hty).
    + unfold record_allocate. by rewrite Hty.
    + by rewrite (record_allocate_temp_final _ _ _ _ _ _ Hty).
  - destruct (persist_entries s a !! buf) as [info |] eqn:Hp.
    + by rewrite (record_deallocate_persistent_state _ _ _ _ _ Hp).
    + destruct (temp_entries s t a !! buf) as [info |] eqn:Ht.
      * by rewrite (record_deallocate_temp_state _ _ _ _ _ Hp Ht).
      * by rewrite (record_deallocate_unknown_state _ _ _ _ Hp Ht).
  - rewrite reset_peak_temp_memory_state.
    by destruct (grants_write (rw_mutex_ s)).
Qed.

(** No call changes who holds the lock once it is over: the only one that
    takes the lock releases it. *)
Lemma lock_state_of_step_state c s :
  lock_state_of (rw_mutex_ (step_state c s)) = lock_state_of (rw_mutex_ s).
Proof.
  destruct c as [t a buf size attr | t a buf | t a]; unfold step_state.
  - destruct (type (data attr)); [| done |];
      unfold record_allocate_temp_state, written; simpl;
      by rewrite !lock_state_of_app.
  - destruct (persist_entries s a !! buf).
    + unfold written. simpl. by rewrite !lock_state_of_app.
    + destruct (temp_entries s t a !! buf);
        unfold after_temp_find, written; simpl;
        by rewrite !lock_state_of_app.
  - destruct (grants_write (rw_mutex_ s)) eqn:Hfree; [| done].
    apply grants_write_released in Hfree.
    unfold reset_peak_state, written. simpl.
    by rewrite !lock_state_of_app, Hfree.
Qed.

Lemma lock_state_of_run_calls cs :
  ∀ s s', run_calls cs s = Returned tt s' →
          lock_state_of (rw_mutex_ s') = lock_state_of (rw_mutex_ s).
Proof.
  induction cs as [| c cs IH]; intros s s' Hrun.
  - simpl in Hrun. unfold ret in Hrun. by injection Hrun as <-.
  - simpl in Hrun. unfold bind in Hrun.
    destruct (run_call c s) as [[] s1 | | | |] eqn:Hcall; try discriminate.
    rewrite (IH s1 s' Hrun).
    replace s1 with (final_state (run_call c s)) by (by rewrite Hcall).
    rewrite final_state_run_call. apply lock_state_of_step_state.
Qed.

Lemma grants_read_after_run_calls cs s :
  run_calls cs monitor_init = Returned tt s →
  grants_read (rw_mutex_ s) = true.
Proof.
  intros Hrun. unfold grants_read.
  by rewrite (lock_state_of_run_calls cs monitor_init s Hrun).
Qed.


(** Persistent buffers of 100, 200 and 300 bytes, then the release of the
    second one. *)
Example persistent_totals_600_400 :
  returned_value
    (bind (run_calls [Allocate 1 7 4096 100 (attribute_of persistent);
                      Allocate 1 7 8192 200 (attribute_of persistent);
                      Allocate 2 7 12288 300 (attribute_of persistent)])
       (λ _, get_total_persist_memory 7) monitor_init) = Some 600 ∧
  returned_value
    (bind (run_calls [Allocate 1 7 4096 100 (attribute_of persistent);
                      Allocate 1 7 8192 200 (attribute_of persistent);
                      Allocate 2 7 12288 300 (attribute_of persistent);
                      Deallocate 3 7 8192])
       (λ _, get_total_persist_memory 7) monitor_init) = Some 400.
Proof. split; reflexivity. Qed.

(** Temporary buffers of 1024 and 2048 bytes on one thread. *)
Example temporary_peak_3072 :
  returned_value
    (bind (run_calls [Allocate 1 7 4096 1024 (attribute_of temp);
                      Allocate 1 7 8192 2048 (attribute_of temp)])
       (λ _, get_peak_temp_memory 1 7) monitor_init) = Some 3072.
Proof. reflexivity. Qed.

(** C1: [record_deallocate] of an address recorded neither in the
    allocator's persistent entry map nor in the calling thread's temporary
    entry map does not report an error: it dereferences the [end()] iterator
    of the temporary entry map, which is undefined behaviour. *)
Theorem record_deallocate_unknown_is_undefined s tid alloc buf :
  persist_entries s alloc !! buf = None →
  temp_entries s tid alloc !! buf = None →
  record_deallocate tid alloc buf s = Undefined (after_temp_find tid alloc s) ∧
  returned_value (record_deallocate tid alloc buf s) = None.
Proof.
  intros Hpersist Htemp.
  by rewrite (record_deallocate_unknown_state s tid alloc buf Hpersist Htemp).
Qed.

(** A temporary buffer recorded by thread 1 and released by thread 2. *)
Lemma record_deallocate_unknown_is_undefined_witness :
  temp_entries one_temp_buffer 1 7 !! 4096%N
  = Some {| size_ := 64; type_ := temp |} ∧
  record_deallocate 2 7 4096 one_temp_buffer
  = Undefined (after_temp_find 2 7 one_temp_buffer) ∧
  returned_value (record_deallocate 2 7 4096 one_temp_buffer) = None.
Proof.
  split; [reflexivity |].
  apply (record_deallocate_unknown_is_undefined one_temp_buffer 2%N 7%N 4096%N);
    reflexivity.
Defined.

(** C2: [record_deallocate] of an address found in the calling thread's
    temporary entry map (and not in the persistent one) subtracts the
    recorded size from the thread's current total, but the record stays in
    the temporary entry map: nothing erases it. *)
Theorem record_deallocate_temp_keeps_entry s tid alloc buf info :
  persist_entries s alloc !! buf = None →
  temp_entries s tid alloc !! buf = Some info →
  ∃ s', record_deallocate tid alloc buf s = Returned tt s' ∧
        temp_current s' tid alloc
        = to_size_t (temp_current s tid alloc - size_ info) ∧
        temp_entries s' tid alloc !! buf = Some info.
Proof.
  intros Hpersist Htemp. run_monitor.
  rewrite persist_find_entries, Hpersist.
  fold (after_temp_find tid alloc s).
  fold (temp_entries (after_temp_find tid alloc s) tid alloc).
  rewrite temp_entries_after_temp_find, Htemp.
  eexists. split; [reflexivity |]. split.
  - unfold temp_current. simpl. by rewrite slot2_assign_slot2_eq.
  - unfold temp_entries. simpl. fold (temp_entries s tid alloc).
    by rewrite slot2_assign_slot2_id.
Qed.

Lemma record_deallocate_temp_keeps_entry_witness :
  ∃ s', record_deallocate 1 7 4096 one_temp_buffer = Returned tt s' ∧
        temp_current s' 1 7 = to_size_t (temp_current one_temp_buffer 1 7 - 64) ∧
        temp_entries s' 1 7 !! 4096%N = Some {| size_ := 64; type_ := temp |}.
Proof.
  apply (record_deallocate_temp_keeps_entry one_temp_buffer 1%N 7%N 4096%N
           {| size_ := 64; type_ := temp |}); reflexivity.
Defined.

(** What the stale record does when the address is handed out again: the
    second release subtracts the size of the first buffer, and the current
    total wraps around. *)
Example stale_temp_entry_wraps_current :
  ∃ s, run_calls [Allocate 1 7 4096 10 (attribute_of temp);
                  Deallocate 1 7 4096;
                  Allocate 1 7 4096 5 (attribute_of temp);
                  Deallocate 1 7 4096] monitor_init = Returned tt s ∧
       temp_current s 1 7 = size_t_modulus - 5.
Proof. eexists. split; [vm_compute; reflexivity | reflexivity]. Qed.

Lemma get_peak_temp_memory_absent_slot s tid alloc :
  grants_read (rw_mutex_ s) = true →
  ¬ peak_slot_initialized s tid alloc →
  get_peak_temp_memory tid alloc s
  = Thrown out_of_range (set_rw_mutex_ (λ h, h ++ [LockRead]) s).
Proof.
  unfold peak_slot_initialized. intros Hlock Hslot. run_monitor.
  rewrite Hlock. simpl.
  destruct (peak_temp_mem_ s !! tid) as [per_alloc |]; simpl in *; [| done].
  destruct (per_alloc !! alloc); [| done].
  exfalso. apply Hslot. by eexists.
Qed.

Lemma get_peak_temp_memory_present_slot s tid alloc :
  grants_read (rw_mutex_ s) = true →
  peak_slot_initialized s tid alloc →
  get_peak_temp_memory tid alloc s
  = Returned (temp_peak s tid alloc)
      (set_rw_mutex_ (λ h, h ++ [UnlockRead])
         (set_rw_mutex_ (λ h, h ++ [LockRead]) s)).
Proof.
  unfold peak_slot_initialized, temp_peak, slot2, slot.
  intros Hlock [v Hv]. run_monitor. rewrite Hlock. simpl.
  destruct (peak_temp_mem_ s !! tid) as [per_alloc |]; simpl in *; [| done].
  by destruct (per_alloc !! alloc).
Qed.

Lemma grants_write_reset_peak_state s tid alloc :
  grants_write (rw_mutex_ s) = true →
  grants_write (rw_mutex_ (reset_peak_state tid alloc s)) = true.
Proof.
  intros Hfree. apply grants_write_released.
  pose proof (lock_state_of_step_state (ResetPeak tid alloc) s) as Hsame.
  simpl in Hsame. rewrite Hfree in Hsame. rewrite Hsame.
  by apply grants_write_released.
Qed.

(** A reset followed by the query, on the same thread, gives 0. *)
Lemma reset_then_get_peak_temp_memory s tid alloc :
  grants_write (rw_mutex_ s) = true →
  returned_value
    (bind (reset_peak_temp_memory tid alloc)
       (λ _, get_peak_temp_memory tid alloc) s) = Some 0.
Proof.
  intros Hfree.
  unfold bind at 1. rewrite reset_peak_temp_memory_state, Hfree.
  rewrite get_peak_temp_memory_present_slot.
  - simpl. unfold temp_peak. simpl. by rewrite slot2_assign_slot2_eq.
  - by apply grants_write_grants_read, grants_write_reset_peak_state.
  - unfold peak_slot_initialized. simpl.
    rewrite lookup2_assign_slot2_eq. by eexists.
Qed.

(** Only a temporary allocation or a reset by the thread for the allocator
    creates the peak slot of the pair. *)
Lemma run_call_leaves_peak_slot c s s' tid alloc :
  run_call c s = Returned tt s' →
  leaves_peak_slot tid alloc c →
  peak_temp_mem_ s' !! tid ≫= (λ per_alloc, per_alloc !! alloc)
  = peak_temp_mem_ s !! tid ≫= (λ per_alloc, per_alloc !! alloc).
Proof.
  destruct c as [t a buf size attr | t a buf | t a]; simpl; intros Hrun Hleave.
  - destruct (type (data attr)) eqn:Hty.
    + rewrite (record_allocate_persistent_state _ _ _ _ _ _ Hty) in Hrun.
      by injection Hrun as <-.
    + unfold record_allocate in Hrun. rewrite Hty in Hrun. discriminate.
    + unfold record_allocate in Hrun. rewrite Hty in Hrun.
      injection Hrun as <-. simpl.
      apply lookup2_assign_slot2_ne. auto.
  - destruct (persist_entries s a !! buf) as [info |] eqn:Hp.
    + rewrite (record_deallocate_persistent_state _ _ _ _ _ Hp) in Hrun.
      by injection Hrun as <-.
    + destruct (temp_entries s t a !! buf) as [info |] eqn:Ht.
      * rewrite (record_deallocate_temp_state _ _ _ _ _ Hp Ht) in Hrun.
        by injection Hrun as <-.
      * rewrite (record_deallocate_unknown_state _ _ _ _ Hp Ht) in Hrun.
        discriminate.
  - apply reset_peak_temp_memory_returned in Hrun as [_ ->].
    simpl. by apply lookup2_assign_slot2_ne.
Qed.

Lemma run_calls_leave_peak_slot cs :
  ∀ s s' tid alloc,
    Forall (leaves_peak_slot tid alloc) cs →
    run_calls cs s = Returned tt s' →
    ¬ peak_slot_initialized s tid alloc →
    ¬ peak_slot_initialized s' tid alloc.
Proof.
  induction cs as [| c cs IH]; intros s s' tid alloc Hall Hrun Hslot.
  - simpl in Hrun. unfold ret in Hrun. by injection Hrun as <-.
  - apply Forall_cons in Hall as [Hc Hcs].
    simpl in Hrun. unfold bind in Hrun.
    destruct (run_call c s) as [[] s1 | | | |] eqn:Hcall; try discriminate.
    apply (IH s1 s' tid alloc Hcs Hrun).
    unfold peak_slot_initialized in *.
    by rewrite (run_call_leaves_peak_slot c s s1 tid alloc Hcall Hc).
Qed.

Lemma peak_slot_uninitialized_init tid alloc :
  ¬ peak_slot_initialized monitor_init tid alloc.
Proof.
  unfold peak_slot_initialized. simpl. rewrite lookup_empty. simpl.
  by intros [v Hv].
Qed.

(** C3: on a (thread, allocator) slot that was never initialised, that is
    after any history of returning calls without a temporary allocation or
    a reset by that thread for that allocator, [get_peak_temp_memory] does
    not return 0: [at] throws [std::out_of_range], and the read lock taken
    before is not released. *)
Theorem get_peak_temp_memory_uninitialized_throws cs s tid alloc :
  Forall (leaves_peak_slot tid alloc) cs →
  run_calls cs monitor_init = Returned tt s →
  ¬ peak_slot_initialized s tid alloc ∧
  get_peak_temp_memory tid alloc s
  = Thrown out_of_range (set_rw_mutex_ (λ h, h ++ [LockRead]) s) ∧
  returned_value (get_peak_temp_memory tid alloc s) = None.
Proof.
  intros Hall Hrun.
  assert (Hslot : ¬ peak_slot_initialized s tid alloc).
  { apply (run_calls_leave_peak_slot cs monitor_init s tid alloc Hall Hrun).
    apply peak_slot_uninitialized_init. }
  split; [done |].
  by rewrite (get_peak_temp_memory_absent_slot s tid alloc
                (grants_read_after_run_calls cs s Hrun) Hslot).
Qed.

(** Thread 3 asks for its peak on allocator 7, which only thread 1 used. *)
Lemma get_peak_temp_memory_uninitialized_throws_witness :
  ∃ s, run_calls thread_1_history monitor_init = Returned tt s ∧
       ¬ peak_slot_initialized s 3 7 ∧
       get_peak_temp_memory 3 7 s
       = Thrown out_of_range (set_rw_mutex_ (λ h, h ++ [LockRead]) s) ∧
       returned_value (get_peak_temp_memory 3 7 s) = None.
Proof.
  eexists. split; [vm_compute; reflexivity |].
  apply (get_peak_temp_memory_uninitialized_throws thread_1_history _ 3%N 7%N).
  - repeat constructor; simpl; intros; discriminate.
  - vm_compute; reflexivity.
Defined.

(** The sibling query does handle the missing slot. *)
Lemma get_total_persist_memory_absent s alloc :
  grants_read (rw_mutex_ s) = true →
  persist_mem_ s !! alloc = None →
  ∃ s', get_total_persist_memory alloc s = Returned 0 s'.
Proof.
  intros Hlock Habs. run_monitor. rewrite Hlock. simpl. rewrite Habs.
  by eexists.
Qed.

(** C9: [record_allocate] with the [output] lifetime aborts: it neither
    returns nor touches any of the maps. *)
Theorem record_allocate_output_aborts s tid alloc buf size attr :
  type (data attr) = output →
  ∃ msg, record_allocate tid alloc buf size attr s = Aborted msg s.
Proof. intros Hout. unfold record_allocate. rewrite Hout. by eexists. Qed.

Lemma record_allocate_output_aborts_witness :
  ∃ msg, record_allocate 1 7 4096 64 (attribute_of output) monitor_init
         = Aborted msg monitor_init.
Proof.
  apply (record_allocate_output_aborts monitor_init 1%N 7%N 4096%N 64
           (attribute_of output)).
  reflexivity.
Defined.

(** ** Creating an allocator *)

(** C8, as stated, fails in a build that defines [DNNL_GRAPH_CPU_SYCL]: the
    host entry point is withdrawn there and answers [invalid_arguments],
    also when a callback is absent. *)
Lemma allocator_create_withdrawn_in_sycl_only_build :
  any_null (None : option N) (Some 8192%N) = true ∧
  dnnl_graph_allocator_create sycl_only_build None (Some 8192%N)
  = (invalid_arguments, None) ∧
  dnnl_graph_allocator_create sycl_only_build None (Some 8192%N)
  ≠ (success, Some create).
Proof. repeat split. discriminate. Qed.

(** C8: in a build that does not define [DNNL_GRAPH_CPU_SYCL], a call of
    [dnnl_graph_allocator_create] with at least one null callback ignores
    both callbacks, stores the default allocator and returns [success].  In
    a build that defines it, every call, whatever its callbacks, null or
    not, returns [invalid_arguments] and stores nothing. *)
Theorem allocator_create_falls_back_to_default cfg cpu_malloc cpu_free :
  (DNNL_GRAPH_CPU_SYCL cfg = false →
   cpu_malloc = None ∨ cpu_free = None →
   dnnl_graph_allocator_create cfg cpu_malloc cpu_free
   = (success, Some create)) ∧
  (DNNL_GRAPH_CPU_SYCL cfg = true →
   dnnl_graph_allocator_create cfg cpu_malloc cpu_free
   = (invalid_arguments, None)).
Proof.
  unfold dnnl_graph_allocator_create. split.
  - intros Hcfg Hnull. rewrite Hcfg.
    destruct Hnull as [-> | ->]; [done |].
    by destruct cpu_malloc.
  - intros Hcfg. by rewrite Hcfg.
Qed.

Lemma allocator_create_falls_back_to_default_witness :
  dnnl_graph_allocator_create host_build None (Some 8192%N)
  = (success, Some create) ∧
  dnnl_graph_allocator_create sycl_only_build (Some 4096%N) (Some 8192%N)
  = (invalid_arguments, None).
Proof.
  split.
  - apply (proj1 (allocator_create_falls_back_to_default host_build None
                    (Some 8192%N))).
    + reflexivity.
    + left. reflexivity.
  - apply (proj2 (allocator_create_falls_back_to_default sycl_only_build
                    (Some 4096%N) (Some 8192%N))).
    reflexivity.
Defined.

(** The accelerator entry point has the same fallback where it exists. *)
Lemma sycl_interop_allocator_create_falls_back cfg sycl_malloc sycl_free :
  DNNL_GRAPH_WITH_SYCL cfg = true →
  sycl_malloc = None ∨ sycl_free = None →
  dnnl_graph_sycl_interop_allocator_create cfg sycl_malloc sycl_free
  = (success, Some create).
Proof.
  intros Hcfg Hnull. unfold dnnl_graph_sycl_interop_allocator_create.
  rewrite Hcfg. destruct Hnull as [-> | ->]; [done |].
  by destruct sycl_malloc.
Qed.

(** Both callbacks present: the pair is kept as it is. *)
Lemma allocator_create_keeps_full_pair cfg m f :
  DNNL_GRAPH_CPU_SYCL cfg = false →
  dnnl_graph_allocator_create cfg (Some m) (Some f)
  = (success, Some (create_cpu (Some m) (Some f))).
Proof. intros Hcfg. unfold dnnl_graph_allocator_create. by rewrite Hcfg. Qed.

(** ** Lock calls *)

Lemma lock_calls_appended {A} (m : M A) s entries :
  rw_mutex_ (final_state (m s)) = rw_mutex_ s ++ entries →
  lock_calls m s = entries.
Proof. intros Heq. unfold lock_calls. rewrite Heq. apply drop_app_length. Qed.

Lemma rw_mutex_step_state c s :
  rw_mutex_ (step_state c s) = rw_mutex_ s ++ history_of_call c s.
Proof.
  destruct c as [t a buf size attr | t a buf | t a];
    unfold step_state, history_of_call.
  - destruct (type (data attr));
      unfold record_allocate_temp_state, written; simpl;
      by rewrite <- ?app_assoc, ?app_nil_r.
  - destruct (persist_entries s a !! buf).
    + unfold written. simpl. by rewrite <- !app_assoc.
    + destruct (temp_entries s t a !! buf);
        unfold after_temp_find, written; simpl;
        by rewrite <- ?app_assoc.
  - destruct (grants_write (rw_mutex_ s)).
    + unfold reset_peak_state, written. simpl. by rewrite <- !app_assoc.
    + by rewrite app_nil_r.
Qed.

Lemma lock_calls_run_call c s :
  lock_calls (run_call c) s = history_of_call c s.
Proof.
  apply lock_calls_appended.
  rewrite final_state_run_call. apply rw_mutex_step_state.
Qed.

Lemma history_of_call_writes c s :
  (∀ t a, c ≠ ResetPeak t a) →
  Forall (λ e, e = RegistryWrite) (history_of_call c s).
Proof.
  intros Hc. destruct c as [t a buf size attr | t a buf | t a]; simpl.
  - destruct (type (data attr)); repeat constructor.
  - destruct (persist_entries s a !! buf);
      [| destruct (temp_entries s t a !! buf)]; repeat constructor.
  - by destruct (Hc t a).
Qed.

Lemma run_call_not_blocked c s s' :
  (∀ t a, c ≠ ResetPeak t a) → run_call c s ≠ Blocked s'.
Proof.
  intros Hc. destruct c as [t a buf size attr | t a buf | t a]; simpl.
  - unfold record_allocate. by destruct (type (data attr)).
  - run_monitor.
    destruct (persist_mem_infos_ s !! a ≫= _); [done |].
    by destruct (slot2 _ _ _ _ !! buf).
  - by destruct (Hc t a).
Qed.

Lemma writes_guarded_by_writer l entries rest :
  writer l = true →
  Forall (λ e, e = RegistryWrite) entries →
  writes_guarded l (entries ++ rest) = writes_guarded l rest.
Proof.
  intros Hw. induction 1 as [| e entries -> _ IH]; [done |].
  simpl. by rewrite Hw, IH.
Qed.

Lemma bracketed_history c s :
  grants_write (rw_mutex_ s) = true →
  lock_calls (bracketed c) s
  = LockWrite
    :: history_of_call c (set_rw_mutex_ (λ h, h ++ [LockWrite]) s)
    ++ match run_call c (set_rw_mutex_ (λ h, h ++ [LockWrite]) s) with
       | Returned _ _ => [UnlockWrite]
       | _ => []
       end.
Proof.
  intros Hfree. apply lock_calls_appended.
  set (s0 := set_rw_mutex_ (λ h, h ++ [LockWrite]) s).
  assert (Hhist : rw_mutex_ (final_state (run_call c s0))
                  = rw_mutex_ s ++ LockWrite :: history_of_call c s0).
  { rewrite final_state_run_call, rw_mutex_step_state.
    unfold s0. simpl. by rewrite <- app_assoc. }
  unfold bracketed, lock_write, rw_lock_write, bind, get. rewrite Hfree.
  unfold modify. fold s0.
  destruct (run_call c s0) as [[] s1 | e s1 | msg s1 | s1 | s1];
    simpl in *; rewrite Hhist, ?app_nil_r; [| done..].
  by rewrite <- app_assoc.
Qed.

(** C4, as stated, fails: [record_allocate] writes to the registry without
    a single call on the lock, so with the lock held by nobody. *)
Lemma record_allocate_takes_no_lock :
  lock_calls (record_allocate 1 7 4096 64 (attribute_of persistent)) monitor_init
  = [RegistryWrite; RegistryWrite] ∧
  persist_total
    (final_state
       (record_allocate 1 7 4096 64 (attribute_of persistent) monitor_init)) 7
  = 64 ∧
  ¬ takes_write_lock (record_allocate 1 7 4096 64 (attribute_of persistent)) ∧
  ¬ writes_under_own_lock
      (record_allocate 1 7 4096 64 (attribute_of persistent)).
Proof.
  assert (Hhist : lock_calls
                    (record_allocate 1 7 4096 64 (attribute_of persistent))
                    monitor_init = [RegistryWrite; RegistryWrite])
    by (vm_compute; reflexivity).
  split; [exact Hhist |]. split; [vm_compute; reflexivity |]. split.
  - intros Hlock. specialize (Hlock monitor_init). rewrite Hhist in Hlock.
    apply elem_of_cons in Hlock as [Heq | Hlock]; [discriminate |].
    apply elem_of_cons in Hlock as [Heq | Hlock]; [discriminate |].
    by apply elem_of_nil in Hlock.
  - intros Hown. destruct (Hown monitor_init eq_refl) as [_ Hguard].
    rewrite Hhist in Hguard. discriminate Hguard.
Qed.

(** C4: of the three mutating member functions only
    [reset_peak_temp_memory] locks.  Called while nobody holds the lock, it
    takes the lock in write mode, writes the peak while holding it and
    releases it; called while the lock is held, it waits and writes
    nothing.  [record_allocate] and [record_deallocate] never wait and add
    nothing but their writes to the history of the lock: they make no call
    on it.  The exclusive mode is available to their caller through
    [lock_write] and [unlock_write], which do nothing but take (waiting if
    need be) and release the lock; a [record_allocate] or
    [record_deallocate] bracketed by them makes all its writes under the
    write lock. *)
Theorem monitor_lock_discipline :
  (∀ tid alloc s,
     grants_write (rw_mutex_ s) = true →
     reset_peak_temp_memory tid alloc s
     = Returned tt (reset_peak_state tid alloc s) ∧
     lock_calls (reset_peak_temp_memory tid alloc) s
     = [LockWrite; RegistryWrite; UnlockWrite] ∧
     writes_guarded (lock_state_of (rw_mutex_ s))
       (lock_calls (reset_peak_temp_memory tid alloc) s) = true ∧
     temp_peak (reset_peak_state tid alloc s) tid alloc = 0 ∧
     grants_write (rw_mutex_ (reset_peak_state tid alloc s)) = true) ∧
  (∀ tid alloc s,
     grants_write (rw_mutex_ s) = false →
     reset_peak_temp_memory tid alloc s = Blocked s) ∧
  (∀ tid alloc buf size attr s,
     Forall (λ e, e = RegistryWrite)
       (lock_calls (record_allocate tid alloc buf size attr) s) ∧
     ∀ s', record_allocate tid alloc buf size attr s ≠ Blocked s') ∧
  (∀ tid alloc buf s,
     Forall (λ e, e = RegistryWrite)
       (lock_calls (record_deallocate tid alloc buf) s) ∧
     ∀ s', record_deallocate tid alloc buf s ≠ Blocked s') ∧
  (∀ s, lock_write s
        = if grants_write (rw_mutex_ s)
          then Returned tt (set_rw_mutex_ (λ h, h ++ [LockWrite]) s)
          else Blocked s) ∧
  (∀ s, unlock_write s
        = Returned tt (set_rw_mutex_ (λ h, h ++ [UnlockWrite]) s)) ∧
  (∀ c s,
     (∀ t a, c ≠ ResetPeak t a) →
     grants_write (rw_mutex_ s) = true →
     writes_guarded (lock_state_of (rw_mutex_ s)) (lock_calls (bracketed c) s)
     = true).
Proof.
  split; [| split; [| split; [| split; [| split; [| split]]]]].
  - intros tid alloc s Hfree.
    assert (Hcalls : lock_calls (reset_peak_temp_memory tid alloc) s
                     = [LockWrite; RegistryWrite; UnlockWrite]).
    { change (reset_peak_temp_memory tid alloc)
        with (run_call (ResetPeak tid alloc)).
      rewrite lock_calls_run_call. simpl. by rewrite Hfree. }
    split; [by rewrite reset_peak_temp_memory_state, Hfree |].
    split; [exact Hcalls |]. split; [by rewrite Hcalls |].
    split; [| by apply grants_write_reset_peak_state].
    unfold temp_peak, reset_peak_state, written. simpl.
    by rewrite slot2_assign_slot2_eq.
  - intros tid alloc s Hheld.
    by rewrite reset_peak_temp_memory_state, Hheld.
  - intros tid alloc buf size attr s. split.
    + change (record_allocate tid alloc buf size attr)
        with (run_call (Allocate tid alloc buf size attr)).
      rewrite lock_calls_run_call. by apply history_of_call_writes.
    + intros s'.
      by apply (run_call_not_blocked (Allocate tid alloc buf size attr)).
  - intros tid alloc buf s. split.
    + change (record_deallocate tid alloc buf)
        with (run_call (Deallocate tid alloc buf)).
      rewrite lock_calls_run_call. by apply history_of_call_writes.
    + intros s'. by apply (run_call_not_blocked (Deallocate tid alloc buf)).
  - intros s. unfold lock_write. run_monitor.
    by destruct (grants_write (rw_mutex_ s)).
  - done.
  - intros c s Hc Hfree. rewrite (bracketed_history c s Hfree).
    apply grants_write_released in Hfree. rewrite Hfree.
    cbn [writes_guarded lock_step lock_released andb].
    rewrite writes_guarded_by_writer;
      [by destruct (run_call c _) | done | by apply history_of_call_writes].
Qed.

Lemma monitor_lock_discipline_witness :
  (reset_peak_temp_memory 1 7 one_temp_buffer
   = Returned tt (reset_peak_state 1 7 one_temp_buffer) ∧
   lock_calls (reset_peak_temp_memory 1 7) one_temp_buffer
   = [LockWrite; RegistryWrite; UnlockWrite] ∧
   writes_guarded (lock_state_of (rw_mutex_ one_temp_buffer))
     (lock_calls (reset_peak_temp_memory 1 7) one_temp_buffer) = true ∧
   temp_peak (reset_peak_state 1 7 one_temp_buffer) 1 7 = 0 ∧
   grants_write (rw_mutex_ (reset_peak_state 1 7 one_temp_buffer)) = true) ∧
  reset_peak_temp_memory 1 7 read_lock_leaked = Blocked read_lock_leaked ∧
  writes_guarded (lock_state_of (rw_mutex_ one_temp_buffer))
    (lock_calls (bracketed (Allocate 1 7 8192 32 (attribute_of temp)))
       one_temp_buffer) = true.
Proof.
  split; [| split].
  - apply (proj1 monitor_lock_discipline 1%N 7%N one_temp_buffer).
    vm_compute; reflexivity.
  - apply (proj1 (proj2 monitor_lock_discipline) 1%N 7%N read_lock_leaked).
    vm_compute; reflexivity.
  - apply (proj2 (proj2 (proj2 (proj2 (proj2 (proj2 monitor_lock_discipline)))))
             (Allocate 1 7 8192 32 (attribute_of temp)) one_temp_buffer).
    + discriminate.
    + vm_compute; reflexivity.
Defined.

(** A caller that brackets the recording with the exposed lock. *)
Example record_allocate_bracketed_by_caller :
  lock_calls
    (bind lock_write
       (λ _, bind (record_allocate 1 7 4096 64 (attribute_of persistent))
               (λ _, unlock_write)))
    monitor_init = [LockWrite; RegistryWrite; RegistryWrite; UnlockWrite].
Proof. vm_compute; reflexivity. Qed.

(** ** Temporary memory: current total and peak *)

(** One returning call and the pair ([tid], [alloc]): what happens to its
    current total and its peak. *)
Lemma run_call_temp_order c s s' tid alloc :
  run_call c s = Returned tt s' →
  spares_peak_order c s tid alloc →
  peak_covers_current s tid alloc →
  peak_covers_current s' tid alloc.
Proof.
  unfold peak_covers_current.
  destruct c as [t a buf size attr | t a buf | t a]; simpl; intros Hrun Hspare Hinv.
  - destruct (type (data attr)) eqn:Hty.
    + rewrite (record_allocate_persistent_state _ _ _ _ _ _ Hty) in Hrun.
      by injection Hrun as <-.
    + unfold record_allocate in Hrun. rewrite Hty in Hrun. discriminate.
    + destruct (record_allocate_temp_returns s t a buf size attr Hty)
        as (s1 & Hret & Hcur & Hpeak & _).
      rewrite Hret in Hrun. injection Hrun as <-.
      rewrite Hcur, Hpeak. case_decide; lia.
  - destruct (persist_entries s a !! buf) as [info |] eqn:Hp.
    + rewrite (record_deallocate_persistent_state _ _ _ _ _ Hp) in Hrun.
      by injection Hrun as <-.
    + destruct (temp_entries s t a !! buf) as [info |] eqn:Ht.
      * rewrite (record_deallocate_temp_state _ _ _ _ _ Hp Ht) in Hrun.
        injection Hrun as <-.
        unfold temp_current, temp_peak in *. simpl.
        destruct (decide ((t, a) = (tid, alloc))) as [Hpair | Hpair].
        -- specialize (Hspare Hpair eq_refl info eq_refl).
           injection Hpair as -> ->.
           rewrite slot2_assign_slot2_eq.
           pose proof (to_size_t_le (slot2 0 (temp_mem_ s) tid alloc - size_ info)).
           lia.
        -- by rewrite slot2_assign_slot2_ne.
      * rewrite (record_deallocate_unknown_state _ _ _ _ Hp Ht) in Hrun.
        discriminate.
  - apply reset_peak_temp_memory_returned in Hrun as [_ ->].
    unfold temp_current, temp_peak in *. simpl.
    by rewrite slot2_assign_slot2_ne.
Qed.

Lemma peak_covers_current_init tid alloc :
  peak_covers_current monitor_init tid alloc.
Proof. unfold peak_covers_current. reflexivity. Qed.

Lemma record_allocate_temp_covers s tid alloc buf size attr :
  type (data attr) = temp →
  ∃ s', record_allocate tid alloc buf size attr s = Returned tt s' ∧
        peak_covers_current s' tid alloc.
Proof.
  intros Hty.
  destruct (record_allocate_temp_returns s tid alloc buf size attr Hty)
    as (s' & Hret & Hcur & Hpeak & _).
  exists s'. split; [done |].
  unfold peak_covers_current. rewrite Hcur, Hpeak.
  destruct (decide ((tid, alloc) = (tid, alloc))); [lia | done].
Qed.

Lemma temp_allocate_sequence cs :
  ∀ s tid alloc,
    Forall is_temp_allocate cs →
    ∃ s', run_calls cs s = Returned tt s' ∧
          temp_peak s tid alloc <= temp_peak s' tid alloc ∧
          (peak_covers_current s tid alloc → peak_covers_current s' tid alloc).
Proof.
  induction cs as [| c cs IH]; intros s tid alloc Hall.
  - exists s. split; [done |]. split; [lia | done].
  - apply Forall_cons in Hall as [Hc Hcs].
    destruct c as [t a buf size attr | |]; simpl in Hc; try done.
    destruct (record_allocate_temp_returns s t a buf size attr Hc)
      as (s1 & Hret & Hcur & Hpeak & _).
    destruct (IH s1 tid alloc Hcs) as (s' & Hrun & Hmono & Hinv).
    exists s'. split; [| split].
    + simpl. unfold bind. by rewrite Hret.
    + rewrite Hpeak in Hmono. case_decide; lia.
    + intros Hs. apply Hinv. unfold peak_covers_current in *.
      rewrite Hcur, Hpeak. case_decide; lia.
Qed.

(** C5, as stated, fails: resetting the peak while a temporary buffer is
    live leaves the peak (0) below the current total. *)
Lemma reset_peak_drops_below_current :
  ∃ s, run_calls [Allocate 1 7 4096 10 (attribute_of temp); ResetPeak 1 7]
         monitor_init = Returned tt s ∧
       temp_current s 1 7 = 10 ∧
       temp_peak s 1 7 = 0 ∧
       ¬ peak_covers_current s 1 7.
Proof.
  eexists. split; [reflexivity |]. split; [reflexivity |].
  split; [reflexivity |]. unfold peak_covers_current. by vm_compute.
Qed.

(** C5: for every (thread, allocator) pair the stored peak is at least the
    stored current total when the process starts and right after every
    temporary [record_allocate] of the pair, and every returning call keeps
    it so, except a [reset_peak_temp_memory] of the pair and a
    [record_deallocate] that takes more off the current total than is
    there.  Every sequence of temporary [record_allocate] calls returns,
    and across it the peak of the pair does not decrease and stays at least
    the current total if it was. *)
Theorem temp_peak_order_and_growth :
  (∀ tid alloc, peak_covers_current monitor_init tid alloc) ∧
  (∀ s tid alloc buf size attr,
     type (data attr) = temp →
     ∃ s', record_allocate tid alloc buf size attr s = Returned tt s' ∧
           peak_covers_current s' tid alloc) ∧
  (∀ c s s' tid alloc,
     run_call c s = Returned tt s' →
     spares_peak_order c s tid alloc →
     peak_covers_current s tid alloc →
     peak_covers_current s' tid alloc) ∧
  (∀ cs s tid alloc,
     Forall is_temp_allocate cs →
     ∃ s', run_calls cs s = Returned tt s' ∧
           temp_peak s tid alloc <= temp_peak s' tid alloc ∧
           (peak_covers_current s tid alloc →
            peak_covers_current s' tid alloc)).
Proof.
  split; [exact peak_covers_current_init |].
  split; [exact record_allocate_temp_covers |].
  split; [exact run_call_temp_order |].
  intros cs. apply temp_allocate_sequence.
Qed.

(** The scenario of two temporary buffers of 1024 and 2048 bytes. *)
Lemma temp_peak_order_and_growth_witness :
  Forall is_temp_allocate
    [Allocate 1 7 4096 1024 (attribute_of temp);
     Allocate 1 7 8192 2048 (attribute_of temp)] ∧
  peak_covers_current monitor_init 1 7 ∧
  ∃ s', run_calls [Allocate 1 7 4096 1024 (attribute_of temp);
                   Allocate 1 7 8192 2048 (attribute_of temp)] monitor_init
        = Returned tt s' ∧
        temp_peak monitor_init 1 7 <= temp_peak s' 1 7 ∧
        (peak_covers_current monitor_init 1 7 → peak_covers_current s' 1 7).
Proof.
  assert (Hall : Forall is_temp_allocate
                   [Allocate 1 7 4096 1024 (attribute_of temp);
                    Allocate 1 7 8192 2048 (attribute_of temp)]).
  { repeat constructor. }
  split; [exact Hall |].
  split; [exact (proj1 temp_peak_order_and_growth 1%N 7%N) |].
  exact (proj2 (proj2 (proj2 temp_peak_order_and_growth)) _ monitor_init 1%N 7%N Hall).
Defined.

(** ** Persistent memory: total and entry map *)


Lemma sum_sizes_insert (infos : gmap buffer_ptr mem_info_t) buf info :
  infos !! buf = None →
  sum_sizes (<[buf := info]> infos) = size_ info + sum_sizes infos.
Proof.
  intros Hbuf. unfold sum_sizes.
  rewrite map_fold_insert_L; [done | intros; lia | done].
Qed.



(** What one returning call does to the persistent side of an allocator. *)
Lemma run_call_persistent_effect c s s' :
  run_call c s = Returned tt s' →
  match c with
  | Allocate _ a buf size attr =>
      match type (data attr) with
      | persistent =>
          ∀ alloc,
            persist_total s' alloc
            = (if decide (a = alloc) then to_size_t (persist_total s alloc + size)
               else persist_total s alloc) ∧
            persist_entries s' alloc
            = (if decide (a = alloc)
               then emplace buf {| size_ := size; type_ := persistent |}
                      (persist_entries s alloc)
               else persist_entries s alloc)
      | _ =>
          ∀ alloc, persist_total s' alloc = persist_total s alloc ∧
                   persist_entries s' alloc = persist_entries s alloc
      end
  | Deallocate _ a buf =>
      match persist_entries s a !! buf with
      | Some info =>
          ∀ alloc,
            persist_total s' alloc
            = (if decide (a = alloc)
               then to_size_t (persist_total s alloc - size_ info)
               else persist_total s alloc) ∧
            persist_entries s' alloc
            = (if decide (a = alloc) then delete buf (persist_entries s alloc)
               else persist_entries s alloc)
      | None =>
          ∀ alloc, persist_total s' alloc = persist_total s alloc ∧
                   persist_entries s' alloc = persist_entries s alloc
      end
  | ResetPeak _ _ =>
      ∀ alloc, persist_total s' alloc = persist_total s alloc ∧
               persist_entries s' alloc = persist_entries s alloc
  end.
Proof.
  destruct c as [t a buf size attr | t a buf | t a]; simpl; intros Hrun.
  - destruct (type (data attr)) eqn:Hty.
    + rewrite (record_allocate_persistent_state _ _ _ _ _ _ Hty) in Hrun.
      injection Hrun as <-. intros alloc.
      unfold persist_total, persist_entries. simpl.
      case_decide as Ha.
      * subst. by rewrite !slot_assign_slot_eq.
      * by rewrite !slot_assign_slot_ne.
    + unfold record_allocate in Hrun. rewrite Hty in Hrun. discriminate.
    + destruct (record_allocate_temp_returns s t a buf size attr Hty)
        as (s1 & Hret & _ & _ & Hpm & Hpi).
      rewrite Hret in Hrun. injection Hrun as <-. intros alloc.
      unfold persist_total, persist_entries. by rewrite Hpm, Hpi.
  - destruct (persist_entries s a !! buf) as [info |] eqn:Hp.
    + rewrite (record_deallocate_persistent_state _ _ _ _ _ Hp) in Hrun.
      injection Hrun as <-. intros alloc.
      unfold persist_total, persist_entries. simpl.
      case_decide as Ha.
      * subst. by rewrite !slot_assign_slot_eq.
      * by rewrite !slot_assign_slot_ne.
    + destruct (temp_entries s t a !! buf) as [info |] eqn:Ht.
      * rewrite (record_deallocate_temp_state _ _ _ _ _ Hp Ht) in Hrun.
        by injection Hrun as <-.
      * rewrite (record_deallocate_unknown_state _ _ _ _ Hp Ht) in Hrun.
        discriminate.
  - by apply reset_peak_temp_memory_returned in Hrun as [_ ->].
Qed.

(** The stored total stays a [size_t] value. *)
Lemma run_call_persist_total_typed c s s' alloc :
  run_call c s = Returned tt s' →
  is_size_t (persist_total s alloc) →
  is_size_t (persist_total s' alloc).
Proof.
  intros Hrun Hty.
  pose proof (run_call_persistent_effect c s s' Hrun) as Heff.
  destruct c as [t a buf size attr | t a buf | t a]; simpl in *.
  - destruct (type (data attr)); destruct (Heff alloc) as [-> _]; try done.
    case_decide; [apply to_size_t_range | done].
  - destruct (persist_entries s a !! buf);
      destruct (Heff alloc) as [-> _]; try done.
    case_decide; [apply to_size_t_range | done].
  - by destruct (Heff alloc) as [-> _].
Qed.









(** After a persistent [record_allocate] the address is in the entry map:
    with the new record when it was absent, with the old one otherwise. *)
Lemma lookup_emplace_eq (infos : gmap buffer_ptr mem_info_t) buf info :
  emplace buf info infos !! buf
  = Some (match infos !! buf with Some old => old | None => info end).
Proof.
  unfold emplace. destruct (infos !! buf) eqn:Hbuf; [done |].
  by rewrite lookup_insert_eq.
Qed.

(** C7, as stated, fails: when the address is already recorded with
    another size, the release after the second allocation subtracts the
    size of the first. *)
Lemma persist_total_not_restored_on_recorded_address :
  returned_value (get_total_persist_memory 7 one_persistent_buffer) = Some 10 ∧
  returned_value
    (bind (record_allocate 1 7 4096 5 (attribute_of persistent))
       (λ _, bind (record_deallocate 1 7 4096)
               (λ _, get_total_persist_memory 7))
       one_persistent_buffer) = Some 5.
Proof. split; vm_compute; reflexivity. Qed.

(** C7: a persistent [record_allocate] followed by the [record_deallocate]
    of the same address, from any thread, brings the stored total and with
    it [get_total_persist_memory] back to the value it had before, provided
    the address was not already recorded for the allocator with another
    size.  The query gives the same result before and after, and that
    result is the stored total whenever no writer holds the lock, which is
    when the query does not have to wait. *)
Theorem persist_allocate_deallocate_restores_total
    s tid tid' alloc buf size attr :
  type (data attr) = persistent →
  is_size_t (persist_total s alloc) →
  (∀ old, persist_entries s alloc !! buf = Some old → size_ old = size) →
  (∃ s', run_calls [Allocate tid alloc buf size attr;
                    Deallocate tid' alloc buf] s = Returned tt s' ∧
         persist_total s' alloc = persist_total s alloc) ∧
  returned_value
    (bind (record_allocate tid alloc buf size attr)
       (λ _, bind (record_deallocate tid' alloc buf)
               (λ _, get_total_persist_memory alloc)) s)
  = returned_value (get_total_persist_memory alloc s) ∧
  (grants_read (rw_mutex_ s) = true →
   returned_value (get_total_persist_memory alloc s)
   = Some (persist_total s alloc)).
Proof.
  intros Hty Htotal Hsame.
  set (s1 := written
               (set_persist_mem_infos_
                  (assign_slot ∅
                     (emplace buf {| size_ := size; type_ := persistent |})
                     alloc))
               (written
                  (set_persist_mem_
                     (assign_slot 0 (λ v, to_size_t (v + size)) alloc)) s)).
  assert (Hrun1 : run_call (Allocate tid alloc buf size attr) s = Returned tt s1)
    by exact (record_allocate_persistent_state s tid alloc buf size attr Hty).
  pose proof (run_call_persistent_effect _ _ _ Hrun1) as Heff1.
  simpl in Heff1. rewrite Hty in Heff1.
  destruct (Heff1 alloc) as [Htot1 Hent1].
  rewrite decide_True in Htot1 by done.
  rewrite decide_True in Hent1 by done.
  set (info1 := match persist_entries s alloc !! buf with
                | Some old => old
                | None => {| size_ := size; type_ := persistent |}
                end).
  assert (Hlook1 : persist_entries s1 alloc !! buf = Some info1)
    by (rewrite Hent1; apply lookup_emplace_eq).
  assert (Hsize1 : size_ info1 = size).
  { unfold info1. destruct (persist_entries s alloc !! buf) eqn:Hbuf; auto. }
  pose proof (record_deallocate_persistent_state s1 tid' alloc buf info1 Hlook1)
    as Hrun2.
  set (s2 := written (set_persist_mem_infos_ (assign_slot ∅ (delete buf) alloc))
               (written
                  (set_persist_mem_
                     (assign_slot 0 (λ v, to_size_t (v - size_ info1)) alloc))
                  s1)) in *.
  pose proof (run_call_persistent_effect (Deallocate tid' alloc buf) _ _ Hrun2)
    as Heff2.
  simpl in Heff2. rewrite Hlook1 in Heff2.
  destruct (Heff2 alloc) as [Htot2 _].
  rewrite decide_True in Htot2 by done.
  simpl in Hrun1.
  assert (Hruns : run_calls [Allocate tid alloc buf size attr;
                             Deallocate tid' alloc buf] s = Returned tt s2).
  { simpl. unfold bind. by rewrite Hrun1, Hrun2. }
  assert (Hrestored : persist_total s2 alloc = persist_total s alloc).
  { rewrite Htot2, Htot1, Hsize1, to_size_t_sub_l.
    replace (persist_total s alloc + size - size) with (persist_total s alloc)
      by lia.
    by apply to_size_t_small. }
  assert (Hlock : grants_read (rw_mutex_ s2) = grants_read (rw_mutex_ s)).
  { unfold grants_read. by rewrite (lock_state_of_run_calls _ s s2 Hruns). }
  split; [by exists s2 |]. split.
  - unfold bind at 1. rewrite Hrun1.
    unfold bind at 1. rewrite Hrun2.
    rewrite !get_total_persist_memory_returns, Hlock.
    destruct (grants_read (rw_mutex_ s)); simpl; [by f_equal | done].
  - intros Hread. by rewrite get_total_persist_memory_returns, Hread.
Qed.

Lemma persist_allocate_deallocate_restores_total_witness :
  (∃ s', run_calls [Allocate 1 7 8192 300 (attribute_of persistent);
                    Deallocate 2 7 8192] one_persistent_buffer
         = Returned tt s' ∧
         persist_total s' 7 = persist_total one_persistent_buffer 7) ∧
  returned_value
    (bind (record_allocate 1 7 8192 300 (attribute_of persistent))
       (λ _, bind (record_deallocate 2 7 8192)
               (λ _, get_total_persist_memory 7)) one_persistent_buffer)
  = returned_value (get_total_persist_memory 7 one_persistent_buffer) ∧
  returned_value (get_total_persist_memory 7 one_persistent_buffer)
  = Some (persist_total one_persistent_buffer 7).
Proof.
  destruct (persist_allocate_deallocate_restores_total one_persistent_buffer
              1%N 2%N 7%N 8192%N 300 (attribute_of persistent))
    as (Hstate & Hquery & Hvalue).
  - reflexivity.
  - by vm_compute.
  - intros old Hold. by vm_compute in Hold.
  - split; [exact Hstate |]. split; [exact Hquery |].
    apply Hvalue. vm_compute; reflexivity.
Defined.

Lemma record_allocate_persistent_effect s tid alloc buf size attr :
  type (data attr) = persistent →
  ∃ s', record_allocate tid alloc buf size attr s = Returned tt s' ∧
        persist_total s' alloc = to_size_t (persist_total s alloc + size) ∧
        persist_entries s' alloc
        = emplace buf {| size_ := size; type_ := persistent |}
            (persist_entries s alloc).
Proof.
  intros Hty. eexists. split.
  - exact (record_allocate_persistent_state s tid alloc buf size attr Hty).
  - pose proof (run_call_persistent_effect
                  (Allocate tid alloc buf size attr) s _
                  (record_allocate_persistent_state s tid alloc buf size attr Hty))
      as Heff.
    simpl in Heff. rewrite Hty in Heff.
    destruct (Heff alloc) as [Htot Hent].
    rewrite decide_True in Htot by done.
    rewrite decide_True in Hent by done.
    done.
Qed.

(** C10, as stated, fails on its last clause: the total is a [size_t] and
    wraps around.  With 4096 recorded at size 1, two more persistent
    allocations of [2^63] bytes at 4096 leave the total at 1, which is the
    sum of the recorded sizes, not above it. *)
Lemma persist_total_wraps_back_to_entry_sum :
  persist_entries one_byte_persistent 7 !! 4096%N
  = Some {| size_ := 1; type_ := persistent |} ∧
  ∃ s', run_calls [Allocate 1 7 4096 (2 ^ 63) (attribute_of persistent);
                   Allocate 1 7 4096 (2 ^ 63) (attribute_of persistent)]
          one_byte_persistent = Returned tt s' ∧
        persist_entries s' 7 = persist_entries one_byte_persistent 7 ∧
        persist_total s' 7 = 1 ∧
        sum_sizes (persist_entries s' 7) = 1 ∧
        ¬ sum_sizes (persist_entries s' 7) < persist_total s' 7.
Proof.
  split; [vm_compute; reflexivity |].
  eexists. split; [vm_compute; reflexivity |].
  split; [vm_compute; reflexivity |].
  split; [vm_compute; reflexivity |].
  split; [vm_compute; reflexivity |].
  vm_compute. discriminate.
Qed.

(** C10: a persistent [record_allocate] for an address that the
    allocator's persistent entry map already holds leaves the entry map,
    and so the existing record, as it is, and adds the new size to the
    total ([size_t] addition).  So after two persistent [record_allocate]
    calls with non-zero sizes for one address, the second of which
    necessarily finds it recorded, the total is strictly above the sum of
    the recorded sizes, given that it was not below it before and that the
    additions do not wrap around. *)
Theorem record_allocate_persistent_on_recorded_address :
  (∀ s tid alloc buf size attr old,
     type (data attr) = persistent →
     persist_entries s alloc !! buf = Some old →
     ∃ s', record_allocate tid alloc buf size attr s = Returned tt s' ∧
           persist_entries s' alloc = persist_entries s alloc ∧
           persist_entries s' alloc !! buf = Some old ∧
           persist_total s' alloc = to_size_t (persist_total s alloc + size)) ∧
  (∀ s tid1 tid2 alloc buf size1 size2 attr1 attr2,
     type (data attr1) = persistent →
     type (data attr2) = persistent →
     0 < size1 →
     0 < size2 →
     is_size_t (persist_total s alloc) →
     sum_sizes (persist_entries s alloc) <= persist_total s alloc →
     persist_total s alloc + size1 + size2 < size_t_modulus →
     ∃ s', run_calls [Allocate tid1 alloc buf size1 attr1;
                      Allocate tid2 alloc buf size2 attr2] s = Returned tt s' ∧
           persist_total s' alloc = persist_total s alloc + size1 + size2 ∧
           sum_sizes (persist_entries s' alloc) < persist_total s' alloc).
Proof.
  split.
  - intros s tid alloc buf size attr old Hty Hold.
    destruct (record_allocate_persistent_effect s tid alloc buf size attr Hty)
      as (s' & Hret & Htot & Hent).
    exists s'. rewrite (emplace_present _ _ _ _ Hold) in Hent.
    by rewrite Hent.
  - intros s tid1 tid2 alloc buf size1 size2 attr1 attr2
      Hty1 Hty2 Hpos1 Hpos2 [Hlo Hhi] Hsum Hfit.
    destruct (record_allocate_persistent_effect s tid1 alloc buf size1 attr1 Hty1)
      as (s1 & Hret1 & Htot1 & Hent1).
    destruct (record_allocate_persistent_effect s1 tid2 alloc buf size2 attr2 Hty2)
      as (s2 & Hret2 & Htot2 & Hent2).
    exists s2.
    assert (Hlook1 : is_Some (persist_entries s1 alloc !! buf)).
    { rewrite Hent1, lookup_emplace_eq. by eexists. }
    destruct Hlook1 as [rec1 Hrec1].
    rewrite (emplace_present _ _ _ _ Hrec1) in Hent2.
    rewrite to_size_t_small in Htot1 by (unfold is_size_t; lia).
    rewrite Htot1, to_size_t_small in Htot2 by (unfold is_size_t; lia).
    split; [| split].
    + simpl. unfold bind. by rewrite Hret1, Hret2.
    + done.
    + rewrite Htot2, Hent2, Hent1. unfold emplace.
      destruct (persist_entries s alloc !! buf) eqn:Hbuf.
      * lia.
      * rewrite sum_sizes_insert by done. simpl. lia.
Qed.

Lemma record_allocate_persistent_on_recorded_address_witness :
  (∃ s', record_allocate 2 7 4096 5 (attribute_of persistent)
           one_persistent_buffer = Returned tt s' ∧
         persist_entries s' 7 = persist_entries one_persistent_buffer 7 ∧
         persist_entries s' 7 !! 4096%N
         = Some {| size_ := 10; type_ := persistent |} ∧
         persist_total s' 7
         = to_size_t (persist_total one_persistent_buffer 7 + 5)) ∧
  (∃ s', run_calls [Allocate 1 7 4096 5 (attribute_of persistent);
                    Allocate 2 7 4096 3 (attribute_of persistent)]
           one_persistent_buffer = Returned tt s' ∧
         persist_total s' 7 = persist_total one_persistent_buffer 7 + 5 + 3 ∧
         sum_sizes (persist_entries s' 7) < persist_total s' 7).
Proof.
  split.
  - apply (proj1 record_allocate_persistent_on_recorded_address
             one_persistent_buffer 2%N 7%N 4096%N 5 (attribute_of persistent)
             {| size_ := 10; type_ := persistent |}); reflexivity.
  - apply (proj2 record_allocate_persistent_on_recorded_address
             one_persistent_buffer 1%N 2%N 7%N 4096%N 5 3
             (attribute_of persistent) (attribute_of persistent));
      try reflexivity; by vm_compute.
Defined.

(** * Further properties *)

(** ** The entry points of the C API *)

(** X1: each of the two creation entry points stores an allocator through
    its out-parameter exactly when it returns [success]; the host entry
    point never answers [unimplemented] and the accelerator entry point
    never answers [invalid_arguments]. *)
Theorem allocator_create_stores_iff_success cfg malloc_f free_f :
  (is_Some (snd (dnnl_graph_allocator_create cfg malloc_f free_f))
   ↔ fst (dnnl_graph_allocator_create cfg malloc_f free_f) = success) ∧
  fst (dnnl_graph_allocator_create cfg malloc_f free_f) ≠ unimplemented ∧
  (is_Some (snd (dnnl_graph_sycl_interop_allocator_create cfg malloc_f free_f))
   ↔ fst (dnnl_graph_sycl_interop_allocator_create cfg malloc_f free_f)
     = success) ∧
  fst (dnnl_graph_sycl_interop_allocator_create cfg malloc_f free_f)
  ≠ invalid_arguments.
Proof.
  unfold dnnl_graph_allocator_create, dnnl_graph_sycl_interop_allocator_create.
  destruct (DNNL_GRAPH_CPU_SYCL cfg), (DNNL_GRAPH_WITH_SYCL cfg); simpl;
    repeat split; intros; try done; try (by eexists);
    match goal with H : is_Some None |- _ => by destruct H end.
Qed.

(** X2: the allocator a creation entry point stores is the default one if
    and only if one of the two callbacks is null; with both callbacks
    present it is bound to exactly that pair. *)
Theorem allocator_create_default_iff_null cfg malloc_f free_f a :
  (snd (dnnl_graph_allocator_create cfg malloc_f free_f) = Some a →
   (callbacks_ a = default_callbacks ↔ malloc_f = None ∨ free_f = None) ∧
   (is_Some malloc_f → is_Some free_f →
    callbacks_ a = cpu_callbacks malloc_f free_f)) ∧
  (snd (dnnl_graph_sycl_interop_allocator_create cfg malloc_f free_f) = Some a →
   (callbacks_ a = default_callbacks ↔ malloc_f = None ∨ free_f = None) ∧
   (is_Some malloc_f → is_Some free_f →
    callbacks_ a = sycl_callbacks malloc_f free_f)).
Proof.
  unfold dnnl_graph_allocator_create, dnnl_graph_sycl_interop_allocator_create.
  split; intros Hstored;
    [destruct (DNNL_GRAPH_CPU_SYCL cfg) | destruct (DNNL_GRAPH_WITH_SYCL cfg)];
    simpl in Hstored; try discriminate;
    injection Hstored as <-;
    destruct malloc_f, free_f; simpl; (split; [split |]);
    try (intros [? | ?]); intros; try done;
    try (by left); try (by right);
    match goal with
    | H : is_Some None |- _ => by destruct H
    | _ => idtac
    end.
Qed.

Lemma allocator_create_default_iff_null_witness :
  ((callbacks_ (create_cpu (Some 4096%N) (Some 8192%N)) = default_callbacks
    ↔ Some 4096%N = None ∨ Some 8192%N = None) ∧
   (is_Some (Some 4096%N) → is_Some (Some 8192%N) →
    callbacks_ (create_cpu (Some 4096%N) (Some 8192%N))
    = cpu_callbacks (Some 4096%N) (Some 8192%N))) ∧
  ((callbacks_ create = default_callbacks
    ↔ (None : option N) = None ∨ Some 8192%N = None) ∧
   (is_Some (None : option N) → is_Some (Some 8192%N) →
    callbacks_ create = sycl_callbacks None (Some 8192%N))).
Proof.
  split.
  - apply (proj1 (allocator_create_default_iff_null host_build (Some 4096%N)
                    (Some 8192%N) (create_cpu (Some 4096%N) (Some 8192%N)))).
    reflexivity.
  - apply (proj2 (allocator_create_default_iff_null sycl_build None
                    (Some 8192%N) create)).
    reflexivity.
Defined.

(** X3: what a successful creation stored is a handle that
    [dnnl_graph_allocator_destroy] accepts. *)
Theorem allocator_create_then_destroy cfg malloc_f free_f :
  (fst (dnnl_graph_allocator_create cfg malloc_f free_f) = success →
   dnnl_graph_allocator_destroy
     (snd (dnnl_graph_allocator_create cfg malloc_f free_f)) = success) ∧
  (fst (dnnl_graph_sycl_interop_allocator_create cfg malloc_f free_f) = success →
   dnnl_graph_allocator_destroy
     (snd (dnnl_graph_sycl_interop_allocator_create cfg malloc_f free_f))
   = success).
Proof.
  unfold dnnl_graph_allocator_create, dnnl_graph_sycl_interop_allocator_create.
  by destruct (DNNL_GRAPH_CPU_SYCL cfg), (DNNL_GRAPH_WITH_SYCL cfg).
Qed.

Lemma allocator_create_then_destroy_witness :
  dnnl_graph_allocator_destroy
    (snd (dnnl_graph_allocator_create host_build None (Some 8192%N))) = success ∧
  dnnl_graph_allocator_destroy
    (snd (dnnl_graph_sycl_interop_allocator_create sycl_build (Some 4096%N)
            (Some 8192%N))) = success.
Proof.
  split.
  - apply (proj1 (allocator_create_then_destroy host_build None (Some 8192%N))).
    reflexivity.
  - apply (proj2 (allocator_create_then_destroy sycl_build (Some 4096%N)
                    (Some 8192%N))).
    reflexivity.
Defined.

(** ** One call at a time *)

(** X4: a call made for one allocator never changes the persistent total or
    the persistent entry map of another allocator, however the call ends;
    and a temporary [record_allocate] or a [reset_peak_temp_memory] changes
    no persistent total or entry map at all. *)
Theorem persistent_bookkeeping_isolated c s alloc :
  (call_alloc c ≠ alloc →
   persist_total (final_state (run_call c s)) alloc = persist_total s alloc ∧
   persist_entries (final_state (run_call c s)) alloc = persist_entries s alloc) ∧
  (is_temp_allocate c ∨ (∃ t a, c = ResetPeak t a) →
   persist_mem_ (final_state (run_call c s)) = persist_mem_ s ∧
   persist_mem_infos_ (final_state (run_call c s)) = persist_mem_infos_ s).
Proof.
  rewrite final_state_run_call. split.
  - intros Hother. unfold persist_total, persist_entries.
    destruct c as [t a buf size attr | t a buf | t a]; simpl in *.
    + destruct (type (data attr)); simpl; [| done | done].
      by rewrite !slot_assign_slot_ne.
    + fold (persist_entries s a).
      destruct (persist_entries s a !! buf); simpl.
      * by rewrite !slot_assign_slot_ne.
      * by destruct (temp_entries s t a !! buf).
    + by destruct (grants_write (rw_mutex_ s)).
  - intros [Htemp | (t & a & ->)].
    + destruct c as [t a buf size attr | |]; simpl in Htemp; try done.
      simpl. by rewrite Htemp.
    + simpl. by destruct (grants_write (rw_mutex_ s)).
Qed.

Lemma persistent_bookkeeping_isolated_witness :
  (persist_total
     (final_state
        (run_call (Allocate 1 9 4096 5 (attribute_of persistent))
           one_persistent_buffer)) 7
   = persist_total one_persistent_buffer 7 ∧
   persist_entries
     (final_state
        (run_call (Allocate 1 9 4096 5 (attribute_of persistent))
           one_persistent_buffer)) 7
   = persist_entries one_persistent_buffer 7) ∧
  (persist_mem_
     (final_state
        (run_call (Allocate 1 7 4096 5 (attribute_of temp))
           one_persistent_buffer))
   = persist_mem_ one_persistent_buffer ∧
   persist_mem_infos_
     (final_state
        (run_call (Allocate 1 7 4096 5 (attribute_of temp))
           one_persistent_buffer))
   = persist_mem_infos_ one_persistent_buffer).
Proof.
  split.
  - apply (proj1 (persistent_bookkeeping_isolated
                    (Allocate 1 9 4096 5 (attribute_of persistent))
                    one_persistent_buffer 7%N)).
    discriminate.
  - apply (proj2 (persistent_bookkeeping_isolated
                    (Allocate 1 7 4096 5 (attribute_of temp))
                    one_persistent_buffer 7%N)).
    left. reflexivity.
Defined.

(** X5: a call made by one thread for one allocator never changes the
    temporary current total, the temporary peak or the temporary entry map
    of another (thread, allocator) pair, however the call ends. *)
Theorem temporary_bookkeeping_isolated c s tid alloc :
  call_pair c ≠ (tid, alloc) →
  temp_current (final_state (run_call c s)) tid alloc = temp_current s tid alloc ∧
  temp_peak (final_state (run_call c s)) tid alloc = temp_peak s tid alloc ∧
  temp_entries (final_state (run_call c s)) tid alloc = temp_entries s tid alloc.
Proof.
  intros Hother. rewrite final_state_run_call.
  unfold temp_current, temp_peak, temp_entries.
  destruct c as [t a buf size attr | t a buf | t a]; simpl in *.
  - destruct (type (data attr)); simpl; [done | done |].
    by rewrite !slot2_assign_slot2_ne.
  - destruct (persist_entries s a !! buf); simpl; [done |].
    fold (temp_entries s t a).
    destruct (temp_entries s t a !! buf); simpl;
      rewrite ?slot2_assign_slot2_id; [| done].
    by rewrite slot2_assign_slot2_ne.
  - destruct (grants_write (rw_mutex_ s)); simpl; [| done].
    by rewrite slot2_assign_slot2_ne.
Qed.

Lemma temporary_bookkeeping_isolated_witness :
  temp_current
    (final_state
       (run_call (Allocate 2 7 8192 32 (attribute_of temp)) one_temp_buffer)) 1 7
  = temp_current one_temp_buffer 1 7 ∧
  temp_peak
    (final_state
       (run_call (Allocate 2 7 8192 32 (attribute_of temp)) one_temp_buffer)) 1 7
  = temp_peak one_temp_buffer 1 7 ∧
  temp_entries
    (final_state
       (run_call (Allocate 2 7 8192 32 (attribute_of temp)) one_temp_buffer)) 1 7
  = temp_entries one_temp_buffer 1 7.
Proof.
  apply (temporary_bookkeeping_isolated
           (Allocate 2 7 8192 32 (attribute_of temp)) one_temp_buffer 1%N 7%N).
  discriminate.
Defined.

Lemma lookup_emplace_keeps (infos : gmap buffer_ptr mem_info_t) buf info buf' old :
  infos !! buf' = Some old → emplace buf info infos !! buf' = Some old.
Proof.
  intros Hold. unfold emplace.
  destruct (infos !! buf) eqn:Hbuf; [done |].
  rewrite lookup_insert_ne; [done |]. intros ->. congruence.
Qed.

Lemma temp_allocate_step s tid alloc buf size attr :
  type (data attr) = temp →
  ∃ s', record_allocate tid alloc buf size attr s = Returned tt s' ∧
        temp_current s' tid alloc = to_size_t (temp_current s tid alloc + size) ∧
        temp_peak s' tid alloc
        = Z.max (temp_peak s tid alloc)
            (to_size_t (temp_current s tid alloc + size)) ∧
        temp_entries s' tid alloc
        = emplace buf {| size_ := size; type_ := temp |}
            (temp_entries s tid alloc) ∧
        peak_slot_initialized s' tid alloc ∧
        (∀ a, persist_entries s' a = persist_entries s a).
Proof.
  intros Hty.
  exists (record_allocate_temp_state tid alloc buf size s).
  split; [by apply record_allocate_temp_final |].
  unfold temp_current, temp_peak, temp_entries, peak_slot_initialized,
    record_allocate_temp_state.
  simpl. rewrite !slot2_assign_slot2_eq, lookup2_assign_slot2_eq.
  repeat split; [| by eexists].
  destruct (Z.ltb_spec (slot2 0 (peak_temp_mem_ s) tid alloc)
              (to_size_t (slot2 0 (temp_mem_ s) tid alloc + size))); lia.
Qed.

Lemma temp_deallocate_step s tid alloc buf info :
  persist_entries s alloc !! buf = None →
  temp_entries s tid alloc !! buf = Some info →
  ∃ s', record_deallocate tid alloc buf s = Returned tt s' ∧
        temp_current s' tid alloc
        = to_size_t (temp_current s tid alloc - size_ info) ∧
        temp_peak s' tid alloc = temp_peak s tid alloc ∧
        temp_entries s' tid alloc = temp_entries s tid alloc ∧
        (∀ a, persist_entries s' a = persist_entries s a).
Proof.
  intros Hp Ht. eexists.
  split; [by apply record_deallocate_temp_state |].
  unfold temp_current, temp_peak, temp_entries, after_temp_find. simpl.
  by rewrite slot2_assign_slot2_eq, slot2_assign_slot2_id.
Qed.

(** X6: the release of an address that the allocator's persistent entry map
    holds does not depend on the calling thread: it returns, removes the
    record, takes its size off the persistent total and leaves all
    temporary bookkeeping alone, also when the calling thread holds a
    temporary record for the same address. *)
Theorem persistent_release_ignores_thread s tid tid' alloc buf info :
  persist_entries s alloc !! buf = Some info →
  record_deallocate tid alloc buf s = record_deallocate tid' alloc buf s ∧
  ∃ s', record_deallocate tid alloc buf s = Returned tt s' ∧
        persist_entries s' alloc !! buf = None ∧
        persist_total s' alloc = to_size_t (persist_total s alloc - size_ info) ∧
        temp_mem_ s' = temp_mem_ s ∧
        peak_temp_mem_ s' = peak_temp_mem_ s ∧
        temp_mem_infos_ s' = temp_mem_infos_ s.
Proof.
  intros Hp.
  rewrite !(record_deallocate_persistent_state _ _ _ _ _ Hp).
  split; [done |]. eexists. split; [done |].
  unfold persist_entries, persist_total. simpl.
  rewrite !slot_assign_slot_eq. by rewrite lookup_delete_eq.
Qed.

Lemma persistent_release_ignores_thread_witness :
  temp_entries persistent_and_temp_at_one_address 2 7 !! 4096%N
  = Some {| size_ := 64; type_ := temp |} ∧
  record_deallocate 2 7 4096 persistent_and_temp_at_one_address
  = record_deallocate 5 7 4096 persistent_and_temp_at_one_address ∧
  ∃ s', record_deallocate 2 7 4096 persistent_and_temp_at_one_address
        = Returned tt s' ∧
        persist_entries s' 7 !! 4096%N = None ∧
        persist_total s' 7
        = to_size_t (persist_total persistent_and_temp_at_one_address 7 - 10) ∧
        temp_mem_ s' = temp_mem_ persistent_and_temp_at_one_address ∧
        peak_temp_mem_ s' = peak_temp_mem_ persistent_and_temp_at_one_address ∧
        temp_mem_infos_ s' = temp_mem_infos_ persistent_and_temp_at_one_address.
Proof.
  split; [reflexivity |].
  apply (persistent_release_ignores_thread persistent_and_temp_at_one_address
           2%N 5%N 7%N 4096%N {| size_ := 10; type_ := persistent |}).
  reflexivity.
Defined.

(** X7: a temporary [record_allocate] followed by the [record_deallocate]
    of the same address by the same thread brings the thread's current
    total back to what it was and leaves the peak at the high-water mark,
    provided the address is not in the allocator's persistent entry map and
    not already in the thread's temporary entry map with another size. *)
Theorem temp_allocate_deallocate_round_trip s tid alloc buf size attr :
  type (data attr) = temp →
  is_size_t (temp_current s tid alloc) →
  persist_entries s alloc !! buf = None →
  (∀ old, temp_entries s tid alloc !! buf = Some old → size_ old = size) →
  ∃ s', run_calls [Allocate tid alloc buf size attr; Deallocate tid alloc buf] s
        = Returned tt s' ∧
        temp_current s' tid alloc = temp_current s tid alloc ∧
        temp_peak s' tid alloc
        = Z.max (temp_peak s tid alloc)
            (to_size_t (temp_current s tid alloc + size)).
Proof.
  intros Hty Hcur Hp Hsame.
  destruct (temp_allocate_step s tid alloc buf size attr Hty)
    as (s1 & Hret1 & Hcur1 & Hpeak1 & Hent1 & _ & Hpers1).
  set (info1 := match temp_entries s tid alloc !! buf with
                | Some old => old
                | None => {| size_ := size; type_ := temp |}
                end).
  assert (Hlook1 : temp_entries s1 tid alloc !! buf = Some info1)
    by (rewrite Hent1; apply lookup_emplace_eq).
  assert (Hsize1 : size_ info1 = size).
  { unfold info1. destruct (temp_entries s tid alloc !! buf); auto. }
  assert (Hp1 : persist_entries s1 alloc !! buf = None) by (by rewrite Hpers1).
  destruct (temp_deallocate_step s1 tid alloc buf info1 Hp1 Hlook1)
    as (s2 & Hret2 & Hcur2 & Hpeak2 & _).
  exists s2. split; [| split].
  - simpl. unfold bind. by rewrite Hret1, Hret2.
  - rewrite Hcur2, Hcur1, Hsize1, to_size_t_sub_l.
    replace (temp_current s tid alloc + size - size)
      with (temp_current s tid alloc) by lia.
    by apply to_size_t_small.
  - by rewrite Hpeak2, Hpeak1.
Qed.

Lemma temp_allocate_deallocate_round_trip_witness :
  ∃ s', run_calls [Allocate 1 7 8192 100 (attribute_of temp);
                   Deallocate 1 7 8192] one_temp_buffer = Returned tt s' ∧
        temp_current s' 1 7 = temp_current one_temp_buffer 1 7 ∧
        temp_peak s' 1 7
        = Z.max (temp_peak one_temp_buffer 1 7)
            (to_size_t (temp_current one_temp_buffer 1 7 + 100)).
Proof.
  apply (temp_allocate_deallocate_round_trip one_temp_buffer 1%N 7%N 8192%N 100
           (attribute_of temp)).
  - reflexivity.
  - by vm_compute.
  - reflexivity.
  - intros old Hold. by vm_compute in Hold.
Defined.

(** X8: when a temporary address is released and then handed out again
    with another size, the second release subtracts the size of the first
    buffer: the record of the first allocation is still in the entry map
    and [emplace] does not replace it.  After allocate, release, allocate,
    release at one address the current total is off by the difference of
    the two sizes. *)
Theorem temp_address_reuse_subtracts_stale_size
    s tid alloc buf size1 size2 attr1 attr2 :
  type (data attr1) = temp →
  type (data attr2) = temp →
  persist_entries s alloc !! buf = None →
  temp_entries s tid alloc !! buf = None →
  ∃ s', run_calls [Allocate tid alloc buf size1 attr1; Deallocate tid alloc buf;
                   Allocate tid alloc buf size2 attr2; Deallocate tid alloc buf]
          s = Returned tt s' ∧
        temp_current s' tid alloc
        = to_size_t (temp_current s tid alloc + size2 - size1) ∧
        temp_entries s' tid alloc !! buf
        = Some {| size_ := size1; type_ := temp |}.
Proof.
  intros Hty1 Hty2 Hp Ht.
  destruct (temp_allocate_step s tid alloc buf size1 attr1 Hty1)
    as (s1 & Hret1 & Hcur1 & _ & Hent1 & _ & Hpers1).
  rewrite (emplace_absent _ _ _ Ht) in Hent1.
  assert (Hlook1 : temp_entries s1 tid alloc !! buf
                   = Some {| size_ := size1; type_ := temp |})
    by (by rewrite Hent1, lookup_insert_eq).
  assert (Hp1 : persist_entries s1 alloc !! buf = None) by (by rewrite Hpers1).
  destruct (temp_deallocate_step s1 tid alloc buf _ Hp1 Hlook1)
    as (s2 & Hret2 & Hcur2 & _ & Hent2 & Hpers2).
  destruct (temp_allocate_step s2 tid alloc buf size2 attr2 Hty2)
    as (s3 & Hret3 & Hcur3 & _ & Hent3 & _ & Hpers3).
  assert (Hlook2 : temp_entries s2 tid alloc !! buf
                   = Some {| size_ := size1; type_ := temp |})
    by (by rewrite Hent2).
  rewrite (emplace_present _ _ _ _ Hlook2) in Hent3.
  assert (Hlook3 : temp_entries s3 tid alloc !! buf
                   = Some {| size_ := size1; type_ := temp |})
    by (by rewrite Hent3).
  assert (Hp3 : persist_entries s3 alloc !! buf = None)
    by (by rewrite Hpers3, Hpers2).
  destruct (temp_deallocate_step s3 tid alloc buf _ Hp3 Hlook3)
    as (s4 & Hret4 & Hcur4 & _ & Hent4 & _).
  exists s4. split; [| split].
  - simpl. unfold bind. by rewrite Hret1, Hret2, Hret3, Hret4.
  - rewrite Hcur4, Hcur3, Hcur2, Hcur1. simpl.
    set (c0 := temp_current s tid alloc).
    rewrite to_size_t_sub_l.
    replace (to_size_t (to_size_t (c0 + size1) - size1) + size2 - size1)
      with (to_size_t (to_size_t (c0 + size1) - size1) + (size2 - size1))
      by lia.
    rewrite to_size_t_add_l.
    replace (to_size_t (c0 + size1) - size1 + (size2 - size1))
      with (to_size_t (c0 + size1) + (size2 - size1 - size1)) by lia.
    rewrite to_size_t_add_l. f_equal. lia.
  - by rewrite Hent4.
Qed.

Lemma temp_address_reuse_subtracts_stale_size_witness :
  ∃ s', run_calls [Allocate 1 7 4096 10 (attribute_of temp); Deallocate 1 7 4096;
                   Allocate 1 7 4096 5 (attribute_of temp); Deallocate 1 7 4096]
          monitor_init = Returned tt s' ∧
        temp_current s' 1 7 = to_size_t (temp_current monitor_init 1 7 + 5 - 10) ∧
        temp_entries s' 1 7 !! 4096%N = Some {| size_ := 10; type_ := temp |}.
Proof.
  apply (temp_address_reuse_subtracts_stale_size monitor_init 1%N 7%N 4096%N
           10 5 (attribute_of temp) (attribute_of temp)); reflexivity.
Defined.

(** X9: no call ever removes or changes a record of a temporary entry map:
    whatever the call and however it ends, a record that was in a thread's
    temporary entry map is still there afterwards. *)
Theorem temp_entries_never_shrink c s tid alloc buf info :
  temp_entries s tid alloc !! buf = Some info →
  temp_entries (final_state (run_call c s)) tid alloc !! buf = Some info.
Proof.
  intros Hrec. rewrite final_state_run_call.
  destruct c as [t a b size attr | t a b | t a]; simpl.
  - destruct (type (data attr)); try done.
    unfold temp_entries, record_allocate_temp_state in *. simpl.
    destruct (decide ((t, a) = (tid, alloc))) as [[= -> ->] | Hne].
    + rewrite slot2_assign_slot2_eq. by apply lookup_emplace_keeps.
    + by rewrite slot2_assign_slot2_ne.
  - destruct (persist_entries s a !! b); [done |].
    destruct (temp_entries s t a !! b);
      unfold temp_entries, after_temp_find in *; simpl;
      by rewrite slot2_assign_slot2_id.
  - by destruct (grants_write (rw_mutex_ s)).
Qed.

Lemma temp_entries_never_shrink_witness :
  temp_entries
    (final_state (run_call (Deallocate 1 7 4096) one_temp_buffer)) 1 7 !! 4096%N
  = Some {| size_ := 64; type_ := temp |}.
Proof.
  apply (temp_entries_never_shrink (Deallocate 1 7 4096) one_temp_buffer
           1%N 7%N 4096%N {| size_ := 64; type_ := temp |}).
  reflexivity.
Defined.

(** X10: the two queries never change any of the five maps, however they
    end.  [get_total_persist_memory] returns whenever no writer holds the
    lock, readers or not: it gives the stored total of the allocator (0
    when there is none) and releases the read lock it took.  While a writer
    holds the lock both queries wait, having done nothing. *)
Theorem queries_leave_registries s tid alloc :
  same_registries s (final_state (get_peak_temp_memory tid alloc s)) ∧
  same_registries s (final_state (get_total_persist_memory alloc s)) ∧
  (grants_read (rw_mutex_ s) = true →
   returned_value (get_total_persist_memory alloc s)
   = Some (persist_total s alloc) ∧
   lock_calls (get_total_persist_memory alloc) s = [LockRead; UnlockRead]) ∧
  (grants_read (rw_mutex_ s) = false →
   get_total_persist_memory alloc s = Blocked s ∧
   get_peak_temp_memory tid alloc s = Blocked s).
Proof.
  split; [| split; [| split]].
  - run_monitor. destruct (grants_read (rw_mutex_ s)); [| done]. simpl.
    destruct (peak_temp_mem_ s !! tid) as [per_alloc |]; simpl;
      [destruct (per_alloc !! alloc) |]; by repeat split.
  - rewrite get_total_persist_memory_returns.
    by destruct (grants_read (rw_mutex_ s)).
  - intros Hread. rewrite get_total_persist_memory_returns, Hread.
    split; [done |].
    apply lock_calls_appended.
    rewrite get_total_persist_memory_returns, Hread. simpl.
    by rewrite <- app_assoc.
  - intros Hheld. rewrite get_total_persist_memory_returns, Hheld.
    split; [done |]. run_monitor. by rewrite Hheld.
Qed.

Lemma queries_leave_registries_witness :
  (returned_value (get_total_persist_memory 7 read_lock_leaked)
   = Some (persist_total read_lock_leaked 7) ∧
   lock_calls (get_total_persist_memory 7) read_lock_leaked
   = [LockRead; UnlockRead]) ∧
  (get_total_persist_memory 7 write_locked = Blocked write_locked ∧
   get_peak_temp_memory 1 7 write_locked = Blocked write_locked).
Proof.
  split.
  - apply (proj1 (proj2 (proj2 (queries_leave_registries read_lock_leaked
                                  1%N 7%N)))).
    vm_compute; reflexivity.
  - apply (proj2 (proj2 (proj2 (queries_leave_registries write_locked
                                  1%N 7%N)))).
    vm_compute; reflexivity.
Defined.

(** X11: once a thread has recorded a temporary allocation for an
    allocator, its [get_peak_temp_memory] for that allocator, made while no
    writer holds the lock, returns, and what it returns right after the
    allocation is the larger of the old peak and the new current total. *)
Theorem get_peak_after_temp_allocate s tid alloc buf size attr :
  type (data attr) = temp →
  grants_read (rw_mutex_ s) = true →
  returned_value
    (bind (record_allocate tid alloc buf size attr)
       (λ _, get_peak_temp_memory tid alloc) s)
  = Some (Z.max (temp_peak s tid alloc)
            (to_size_t (temp_current s tid alloc + size))).
Proof.
  intros Hty Hread.
  destruct (temp_allocate_step s tid alloc buf size attr Hty)
    as (s1 & Hret & _ & Hpeak & _ & Hslot & _).
  assert (Hread1 : grants_read (rw_mutex_ s1) = true).
  { unfold grants_read in *.
    replace s1 with (final_state (run_call (Allocate tid alloc buf size attr) s))
      by (simpl; by rewrite Hret).
    by rewrite final_state_run_call, lock_state_of_step_state. }
  unfold bind. rewrite Hret.
  rewrite (get_peak_temp_memory_present_slot s1 tid alloc Hread1 Hslot). simpl.
  by rewrite Hpeak.
Qed.

Lemma get_peak_after_temp_allocate_witness :
  returned_value
    (bind (record_allocate 3 7 4096 100 (attribute_of temp))
       (λ _, get_peak_temp_memory 3 7) monitor_init)
  = Some (Z.max (temp_peak monitor_init 3 7)
            (to_size_t (temp_current monitor_init 3 7 + 100))).
Proof.
  apply (get_peak_after_temp_allocate monitor_init 3%N 7%N 4096%N 100
           (attribute_of temp)); reflexivity.
Defined.

(** X12: called while nobody holds the lock, [reset_peak_temp_memory]
    returns; afterwards the calling thread's [get_peak_temp_memory] for the
    allocator returns 0, while the current totals, the entry maps, the
    persistent bookkeeping and the peaks of all other (thread, allocator)
    pairs are as before.  Called while the lock is held, in either mode, it
    waits and changes nothing. *)
Theorem reset_peak_clears_one_peak s tid alloc :
  (grants_write (rw_mutex_ s) = true →
   ∃ s', reset_peak_temp_memory tid alloc s = Returned tt s' ∧
         returned_value (get_peak_temp_memory tid alloc s') = Some 0 ∧
         persist_mem_ s' = persist_mem_ s ∧
         persist_mem_infos_ s' = persist_mem_infos_ s ∧
         temp_mem_ s' = temp_mem_ s ∧
         temp_mem_infos_ s' = temp_mem_infos_ s ∧
         (∀ t a, (t, a) ≠ (tid, alloc) → temp_peak s' t a = temp_peak s t a)) ∧
  (grants_write (rw_mutex_ s) = false →
   reset_peak_temp_memory tid alloc s = Blocked s).
Proof.
  split; intros Hlock; rewrite reset_peak_temp_memory_state, Hlock; [| done].
  eexists. split; [reflexivity |].
  split; [| by repeat split; intros; unfold temp_peak; simpl;
              rewrite ?slot2_assign_slot2_ne by congruence].
  rewrite get_peak_temp_memory_present_slot.
  - simpl. unfold temp_peak. simpl. by rewrite slot2_assign_slot2_eq.
  - by apply grants_write_grants_read, grants_write_reset_peak_state.
  - unfold peak_slot_initialized. simpl.
    rewrite lookup2_assign_slot2_eq. by eexists.
Qed.

Lemma reset_peak_clears_one_peak_witness :
  (∃ s', reset_peak_temp_memory 1 7 one_temp_buffer = Returned tt s' ∧
         returned_value (get_peak_temp_memory 1 7 s') = Some 0 ∧
         persist_mem_ s' = persist_mem_ one_temp_buffer ∧
         persist_mem_infos_ s' = persist_mem_infos_ one_temp_buffer ∧
         temp_mem_ s' = temp_mem_ one_temp_buffer ∧
         temp_mem_infos_ s' = temp_mem_infos_ one_temp_buffer ∧
         (∀ t a, (t, a) ≠ (1%N, 7%N) →
                 temp_peak s' t a = temp_peak one_temp_buffer t a)) ∧
  reset_peak_temp_memory 3 7 read_lock_leaked = Blocked read_lock_leaked.
Proof.
  split.
  - apply (proj1 (reset_peak_clears_one_peak one_temp_buffer 1%N 7%N)).
    vm_compute; reflexivity.
  - apply (proj2 (reset_peak_clears_one_peak read_lock_leaked 3%N 7%N)).
    vm_compute; reflexivity.
Defined.

(** X13: the first temporary allocation after a reset sets the peak to the
    whole current total of the pair, buffers recorded before the reset
    included, not to the size of the new buffer.  The reset needs the lock:
    this is for a state in which nobody holds it. *)
Theorem peak_restarts_from_current_after_reset s tid alloc buf size attr :
  type (data attr) = temp →
  grants_write (rw_mutex_ s) = true →
  ∃ s', run_calls [ResetPeak tid alloc; Allocate tid alloc buf size attr] s
        = Returned tt s' ∧
        temp_current s' tid alloc = to_size_t (temp_current s tid alloc + size) ∧
        temp_peak s' tid alloc = temp_current s' tid alloc.
Proof.
  intros Hty Hfree.
  set (s1 := reset_peak_state tid alloc s).
  destruct (temp_allocate_step s1 tid alloc buf size attr Hty)
    as (s2 & Hret & Hcur & Hpeak & _).
  exists s2. split; [| split].
  - simpl. unfold bind. rewrite reset_peak_temp_memory_state, Hfree.
    fold s1. by rewrite Hret.
  - by rewrite Hcur.
  - rewrite Hpeak, Hcur.
    assert (Hzero : temp_peak s1 tid alloc = 0).
    { unfold temp_peak, s1. simpl. by rewrite slot2_assign_slot2_eq. }
    rewrite Hzero.
    destruct (to_size_t_range (temp_current s1 tid alloc + size)). lia.
Qed.

Lemma peak_restarts_from_current_after_reset_witness :
  ∃ s', run_calls [ResetPeak 1 7; Allocate 1 7 8192 16 (attribute_of temp)]
          one_temp_buffer = Returned tt s' ∧
        temp_current s' 1 7 = to_size_t (temp_current one_temp_buffer 1 7 + 16) ∧
        temp_peak s' 1 7 = temp_current s' 1 7.
Proof.
  apply (peak_restarts_from_current_after_reset one_temp_buffer 1%N 7%N 8192%N
           16 (attribute_of temp)); [reflexivity | vm_compute; reflexivity].
Defined.

(** ** Sequences of temporary allocations *)

Lemma allocated_by_nonneg tid alloc cs :
  Forall well_typed cs → 0 <= allocated_by tid alloc cs.
Proof.
  induction 1 as [| c cs Hc _ IH]; simpl; [done |].
  destruct c as [t a buf size attr | |]; simpl in Hc; try done.
  destruct Hc as [Hlo _].
  case_decide; [destruct (type (data attr)) |]; lia.
Qed.

(** X14: across any sequence of temporary [record_allocate] calls, made by
    whatever threads for whatever allocators in whatever order, the current
    total of a (thread, allocator) pair grows by exactly the sizes that
    thread asked that allocator for, in [size_t] arithmetic: no update is
    lost or credited to another pair. *)
Theorem temp_current_sums_own_allocations cs :
  ∀ s tid alloc,
    Forall is_temp_allocate cs →
    is_size_t (temp_current s tid alloc) →
    ∃ s', run_calls cs s = Returned tt s' ∧
          temp_current s' tid alloc
          = to_size_t (temp_current s tid alloc + allocated_by tid alloc cs).
Proof.
  induction cs as [| c cs IH]; intros s tid alloc Hall Hcur.
  - exists s. split; [done |]. simpl.
    rewrite Z.add_0_r. symmetry. by apply to_size_t_small.
  - apply Forall_cons in Hall as [Hc Hcs].
    destruct c as [t a buf size attr | |]; simpl in Hc; try done.
    destruct (record_allocate_temp_returns s t a buf size attr Hc)
      as (s1 & Hret & Hcur1 & _).
    assert (Hty1 : is_size_t (temp_current s1 tid alloc)).
    { rewrite Hcur1. case_decide; [apply to_size_t_range | done]. }
    destruct (IH s1 tid alloc Hcs Hty1) as (s' & Hrun & Hsum).
    exists s'. split.
    + simpl. unfold bind. by rewrite Hret.
    + rewrite Hsum, Hcur1. simpl. rewrite Hc.
      case_decide.
      * rewrite to_size_t_add_l. f_equal; lia.
      * f_equal; lia.
Qed.

Lemma temp_current_sums_own_allocations_witness :
  ∃ s', run_calls three_temp_allocations monitor_init = Returned tt s' ∧
        temp_current s' 1 7
        = to_size_t (temp_current monitor_init 1 7
                     + allocated_by 1 7 three_temp_allocations).
Proof.
  apply (temp_current_sums_own_allocations three_temp_allocations
           monitor_init 1%N 7%N).
  - repeat constructor.
  - by vm_compute.
Defined.

(** X15: as long as there are only temporary allocations and the total
    stays below [2^64], the peak of a pair whose peak equals its current
    total keeps equal to it: both end at the old total plus the sizes the
    thread asked the allocator for. *)
Theorem temp_peak_follows_growing_current cs :
  ∀ s tid alloc,
    Forall is_temp_allocate cs →
    Forall well_typed cs →
    0 <= temp_current s tid alloc →
    temp_peak s tid alloc = temp_current s tid alloc →
    temp_current s tid alloc + allocated_by tid alloc cs < size_t_modulus →
    ∃ s', run_calls cs s = Returned tt s' ∧
          temp_current s' tid alloc
          = temp_current s tid alloc + allocated_by tid alloc cs ∧
          temp_peak s' tid alloc = temp_current s' tid alloc.
Proof.
  induction cs as [| c cs IH]; intros s tid alloc Hall Hwt Hlo Hpeak Hfit.
  - exists s. split; [done |]. simpl. split; [lia | done].
  - apply Forall_cons in Hall as [Hc Hcs].
    apply Forall_cons in Hwt as [Hwc Hwcs].
    destruct c as [t a buf size attr | |]; simpl in Hc; try done.
    simpl in Hwc, Hfit. rewrite Hc in Hfit. destruct Hwc as [Hsize _].
    pose proof (allocated_by_nonneg tid alloc cs Hwcs) as Hrest.
    destruct (record_allocate_temp_returns s t a buf size attr Hc)
      as (s1 & Hret & Hcur1 & Hpeak1 & _).
    specialize (Hcur1 tid alloc). specialize (Hpeak1 tid alloc).
    assert (Hstep : temp_current s1 tid alloc
                    = temp_current s tid alloc
                      + (if decide ((t, a) = (tid, alloc)) then size else 0)
                    ∧ temp_peak s1 tid alloc = temp_current s1 tid alloc).
    { destruct (decide ((t, a) = (tid, alloc))).
      - rewrite to_size_t_small in Hcur1, Hpeak1
          by (unfold is_size_t; lia).
        split; lia.
      - split; [lia | congruence]. }
    destruct Hstep as [Hcur1' Hpeak1'].
    destruct (IH s1 tid alloc Hcs Hwcs) as (s' & Hrun & Hsum & Heq);
      [destruct (decide ((t, a) = (tid, alloc))); lia | done
      | destruct (decide ((t, a) = (tid, alloc))); lia |].
    exists s'. split; [| split].
    + simpl. unfold bind. by rewrite Hret.
    + rewrite Hsum, Hcur1'. simpl. rewrite Hc.
      destruct (decide ((t, a) = (tid, alloc))); lia.
    + done.
Qed.

Lemma temp_peak_follows_growing_current_witness :
  ∃ s', run_calls three_temp_allocations monitor_init = Returned tt s' ∧
        temp_current s' 1 7
        = temp_current monitor_init 1 7 + allocated_by 1 7 three_temp_allocations ∧
        temp_peak s' 1 7 = temp_current s' 1 7.
Proof.
  apply (temp_peak_follows_growing_current three_temp_allocations
           monitor_init 1%N 7%N).
  - repeat constructor.
  - repeat constructor; by vm_compute.
  - by vm_compute.
  - reflexivity.
  - by vm_compute.
Defined.

(** ** Releases *)

(** X16: releasing a persistent address twice: the first release removes
    the record, so the second one, made by a thread that holds no temporary
    record for the address, takes the temporary branch and dereferences
    [end()]. *)
Theorem persistent_double_release_is_undefined s tid1 tid2 alloc buf info :
  persist_entries s alloc !! buf = Some info →
  temp_entries s tid2 alloc !! buf = None →
  ∃ s1, record_deallocate tid1 alloc buf s = Returned tt s1 ∧
        record_deallocate tid2 alloc buf s1
        = Undefined (after_temp_find tid2 alloc s1).
Proof.
  intros Hp Ht. eexists.
  split; [by apply record_deallocate_persistent_state |].
  apply record_deallocate_unknown_state.
  - unfold persist_entries. simpl.
    by rewrite slot_assign_slot_eq, lookup_delete_eq.
  - done.
Qed.

Lemma persistent_double_release_is_undefined_witness :
  ∃ s1, record_deallocate 1 7 4096 one_persistent_buffer = Returned tt s1 ∧
        record_deallocate 1 7 4096 s1 = Undefined (after_temp_find 1 7 s1).
Proof.
  apply (persistent_double_release_is_undefined one_persistent_buffer
           1%N 1%N 7%N 4096%N {| size_ := 10; type_ := persistent |});
    reflexivity.
Defined.

(** X17: a release never lowers a recorded peak: whichever branch
    [record_deallocate] takes and however it ends, the peak map is as it
    was.  The same holds for a persistent [record_allocate]. *)
Theorem peaks_survive_releases c s :
  (∃ t a buf, c = Deallocate t a buf) ∨ is_persistent_allocate c →
  peak_temp_mem_ (final_state (run_call c s)) = peak_temp_mem_ s.
Proof.
  rewrite final_state_run_call.
  intros [(t & a & buf & ->) | Hpers].
  - simpl. destruct (persist_entries s a !! buf); [done |].
    by destruct (temp_entries s t a !! buf).
  - destruct c as [t a buf size attr | |]; simpl in Hpers; try done.
    simpl. by rewrite Hpers.
Qed.

Lemma peaks_survive_releases_witness :
  peak_temp_mem_ (final_state (run_call (Deallocate 1 7 4096) one_temp_buffer))
  = peak_temp_mem_ one_temp_buffer.
Proof.
  apply (peaks_survive_releases (Deallocate 1 7 4096) one_temp_buffer).
  left. by exists 1%N, 7%N, 4096%N.
Defined.

(** X18: [record_allocate] does not keep the two registries apart: a
    temporary allocation at an address that the allocator's persistent
    entry map holds is recorded all the same, the persistent record stays,
    and the address is then in both entry maps. *)
Theorem temp_allocate_on_persistent_address s tid alloc buf size attr info :
  type (data attr) = temp →
  persist_entries s alloc !! buf = Some info →
  ∃ s', record_allocate tid alloc buf size attr s = Returned tt s' ∧
        persist_entries s' alloc !! buf = Some info ∧
        is_Some (temp_entries s' tid alloc !! buf) ∧
        temp_current s' tid alloc = to_size_t (temp_current s tid alloc + size).
Proof.
  intros Hty Hp.
  destruct (temp_allocate_step s tid alloc buf size attr Hty)
    as (s' & Hret & Hcur & _ & Hent & _ & Hpers).
  exists s'. split; [done |]. split; [by rewrite Hpers |]. split; [| done].
  rewrite Hent, lookup_emplace_eq. by eexists.
Qed.

Lemma temp_allocate_on_persistent_address_witness :
  ∃ s', record_allocate 2 7 4096 64 (attribute_of temp) one_persistent_buffer
        = Returned tt s' ∧
        persist_entries s' 7 !! 4096%N
        = Some {| size_ := 10; type_ := persistent |} ∧
        is_Some (temp_entries s' 2 7 !! 4096%N) ∧
        temp_current s' 2 7
        = to_size_t (temp_current one_persistent_buffer 2 7 + 64).
Proof.
  apply (temp_allocate_on_persistent_address one_persistent_buffer 2%N 7%N
           4096%N 64 (attribute_of temp) {| size_ := 10; type_ := persistent |});
    reflexivity.
Defined.
